(** * A Gaussian-process emulator for Lyman-alpha flux power spectra

    Shallow embedding of [gpemulator.py], [lyaemu/tempdens.py] and [main.py],
    and the properties of their cross-validation, normalisation and glue code.

    The numerical libraries the code calls (GPy, scipy.optimize, scipy.special,
    the reductions of numpy, [latin_hypercube.map_to_unit_cube], the plotting
    routines) are not part of the code: they are the fields of the class
    [Lib].  The array elements are the instances of the class [Scalar]:
    [float] (binary64, what numpy computes with) and [Qc] (exact rational
    arithmetic, the idealisation). *)

From Stdlib Require Import ZArith QArith Qcanon Floats String List Lia.
From Stdlib Require Import FunctionalExtensionality.
From stdpp Require Import base list gmap strings.

Set Default Proof Using "Type".
#[local] Open Scope nat_scope.

(** ** Exceptions and results *)

Inductive exn : Set :=
| IndexError
| ValueError
| AssertionError
| ZeroDivisionError
| AttributeError
| LibraryError.

Inductive res (A : Type) : Type :=
| Ok (a : A)
| Raise (e : exn).
Arguments Ok {A} a.
Arguments Raise {A} e.

Definition res_bind {A B} (r : res A) (k : A -> res B) : res B :=
  match r with
  | Ok a => k a
  | Raise e => Raise e
  end.

Definition of_option {A} (e : exn) (o : option A) : res A :=
  match o with
  | Some a => Ok a
  | None => Raise e
  end.

Notation "'let?' x ':=' r 'in' k" := (res_bind r (fun x => k))
  (at level 10, x pattern, r at level 100, k at level 200,
   format "'[v' 'let?'  x  ':='  r  'in' '/' k ']'").

Fixpoint res_mapM {A B} (f : A -> res B) (l : list A) : res (list B) :=
  match l with
  | [] => Ok []
  | a :: l' =>
      let? b := f a in
      let? bs := res_mapM f l' in
      Ok (b :: bs)
  end.

(** ** Array elements *)

Class Scalar (A : Type) : Type := {
  s_of_Q : Q -> A;             (* a decimal literal of the source *)
  s_of_nat : nat -> A;         (* an integer converted by true division *)
  s_add : A -> A -> A;
  s_sub : A -> A -> A;
  s_mul : A -> A -> A;
  s_div : A -> A -> A;
  s_abs : A -> A;
  s_ltb : A -> A -> bool;      (* [<] *)
  s_sort_ltb : A -> A -> bool; (* the order of [np.sort]: [nan] last *)
  s_maximum : A -> A -> A      (* [np.maximum]: [nan] wins *)
}.

Module F64.
(** binary64 with round-to-nearest-even, as numpy's [float64]. *)
Definition of_Z (z : Z) : float :=
  SF2Prim (binary_normalize prec emax z 0 false).
Definition of_Q (q : Q) : float :=
  PrimFloat.div (of_Z (Qnum q)) (of_Z (Zpos (Qden q))).
Definition sort_ltb (a b : float) : bool :=
  PrimFloat.ltb a b || (PrimFloat.is_nan b && negb (PrimFloat.is_nan a)).
Definition np_maximum (a b : float) : float :=
  if PrimFloat.leb b a || PrimFloat.is_nan a then a else b.
(** Finite and not zero. *)
Definition regular (x : float) : bool :=
  match PrimFloat.classify x with
  | PNormal | NNormal | PSubn | NSubn => true
  | _ => false
  end.
End F64.

#[export] Instance float_scalar : Scalar float := {|
  s_of_Q := F64.of_Q;
  s_of_nat := fun n => F64.of_Z (Z.of_nat n);
  s_add := PrimFloat.add;
  s_sub := PrimFloat.sub;
  s_mul := PrimFloat.mul;
  s_div := PrimFloat.div;
  s_abs := PrimFloat.abs;
  s_ltb := PrimFloat.ltb;
  s_sort_ltb := F64.sort_ltb;
  s_maximum := F64.np_maximum
|}.

Definition Qc_ltb (a b : Qc) : bool :=
  match (a ?= b)%Qc with Lt => true | _ => false end.

#[export] Instance Qc_scalar : Scalar Qc := {|
  s_of_Q := Q2Qc;
  s_of_nat := fun n => Q2Qc (inject_Z (Z.of_nat n));
  s_add := Qcplus;
  s_sub := Qcminus;
  s_mul := Qcmult;
  s_div := Qcdiv;
  s_abs := fun a => if Qc_ltb a (Q2Qc 0) then Qcopp a else a;
  s_ltb := Qc_ltb;
  s_sort_ltb := Qc_ltb;
  s_maximum := fun a b => if Qc_ltb a b then b else a
|}.

(** ** numpy arrays

    A one-dimensional array is a list; a two-dimensional array is the list of
    its rows with its number of columns, so that an array without rows still
    has a shape.  Only the operations the sources use are modelled, with the
    exceptions numpy raises. *)

Record ndarray2 (A : Type) : Type := Nd2 {
  nd_rows : list (list A);
  nd_ncols : nat
}.
Arguments Nd2 {A} nd_rows nd_ncols.
Arguments nd_rows {A} _.
Arguments nd_ncols {A} _.

Definition wf2 {A} (m : ndarray2 A) : Prop :=
  Forall (fun r => length r = nd_ncols m) (nd_rows m).

Module Np.
Section Np.
Context {A : Type} {SA : Scalar A}.

Definition shape0 {B} (m : ndarray2 B) : nat := length (nd_rows m).
Definition shape1 {B} (m : ndarray2 B) : nat := nd_ncols m.

(** [np.arange(n) != ex] *)
Definition arange_ne (n ex : nat) : list bool :=
  map (fun i => negb (i =? ex)) (seq 0 n).

(** [a[mask]] on the first axis *)
Fixpoint bool_index {B} (l : list B) (mask : list bool) : list B :=
  match l, mask with
  | x :: l', b :: mask' =>
      if b then x :: bool_index l' mask' else bool_index l' mask'
  | _, _ => []
  end.

Definition mask_rows {B} (m : ndarray2 B) (mask : list bool) : res (ndarray2 B) :=
  if length mask =? shape0 m
  then Ok (Nd2 (bool_index (nd_rows m) mask) (nd_ncols m))
  else Raise IndexError.

(** [a[i]] and [a[i,:]], for [0 <= i] *)
Definition row {B} (m : ndarray2 B) (i : nat) : res (list B) :=
  of_option IndexError (nd_rows m !! i).

(** [v.reshape(1,-1)] *)
Definition reshape_row {B} (v : list B) : ndarray2 B := Nd2 [v] (length v).

(** [l[lo:hi]] and [a[:, lo:hi]], for [0 <= lo] *)
Definition slice {B} (lo hi : nat) (l : list B) : list B :=
  take (hi - lo) (drop lo l).

Definition col_slice {B} (m : ndarray2 B) (lo hi : nat) : ndarray2 B :=
  Nd2 (map (slice lo hi) (nd_rows m))
      (Nat.min hi (nd_ncols m) - Nat.min lo (nd_ncols m)).

(** Broadcasting of a binary operation: an axis of length one is stretched. *)
Definition bshape (a b : nat) : res nat :=
  if a =? b then Ok a
  else if a =? 1 then Ok b
  else if b =? 1 then Ok a
  else Raise ValueError.

Definition bcast1 {B C D} (op : B -> C -> D) (u : list B) (v : list C) : res (list D) :=
  if length u =? length v then Ok (zip_with op u v)
  else match u, v with
       | [x], _ => Ok (map (op x) v)
       | _, [y] => Ok (map (fun x => op x y) u)
       | _, _ => Raise ValueError
       end.

Definition bcast_rows (op : A -> A -> A) (r1 r2 : list (list A)) : res (list (list A)) :=
  if length r1 =? length r2
  then res_mapM (fun p => bcast1 op (fst p) (snd p)) (zip r1 r2)
  else match r1, r2 with
       | [u], _ => res_mapM (bcast1 op u) r2
       | _, [v] => res_mapM (fun u => bcast1 op u v) r1
       | _, _ => Raise ValueError
       end.

Definition bcast2 (op : A -> A -> A) (m1 m2 : ndarray2 A) : res (ndarray2 A) :=
  let? c := bshape (nd_ncols m1) (nd_ncols m2) in
  let? rs := bcast_rows op (nd_rows m1) (nd_rows m2) in
  Ok (Nd2 rs c).

(** A two-dimensional array with a one-dimensional one: the latter is a row. *)
Definition bcast21 (op : A -> A -> A) (m : ndarray2 A) (v : list A) : res (ndarray2 A) :=
  bcast2 op m (reshape_row v).

(** [np.array(rows)] of a list of one-dimensional arrays *)
Definition array {B} (rs : list (list B)) : res (ndarray2 B) :=
  match rs with
  | [] => Ok (Nd2 [] 0)
  | r :: _ =>
      if forallb (fun r' => length r' =? length r) rs
      then Ok (Nd2 rs (length r)) else Raise ValueError
  end.

(** [v.reshape(n,-1)] *)
Fixpoint chunks {B} (n c : nat) (v : list B) : list (list B) :=
  match n with
  | 0 => []
  | S n' => take c v :: chunks n' c (drop c v)
  end.

Definition reshape_rows {B} (n : nat) (v : list B) : res (ndarray2 B) :=
  if (n =? 0) || negb (length v mod n =? 0) then Raise ValueError
  else Ok (Nd2 (chunks n (length v / n) v) (length v / n)).

(** [v[ind]] for an array of indices, and [np.where(mask)] *)
Definition take_idx {B} (v : list B) (ind : list nat) : res (list B) :=
  res_mapM (fun i => of_option IndexError (v !! i)) ind.

Definition where_ (mask : list bool) : list nat :=
  map snd (filter (fun p => fst p = true) (zip mask (seq 0 (length mask)))).

(** An array with a number. *)
Definition map2d (f : A -> A) (m : ndarray2 A) : ndarray2 A :=
  Nd2 (map (map f) (nd_rows m)) (nd_ncols m).

(** [np.sort] and [np.argsort]: a stable insertion sort.  numpy's default
    sort may order equal keys differently; the sorted keys are the same. *)
Fixpoint insert_by {B} (lt : B -> B -> bool) (x : B) (l : list B) : list B :=
  match l with
  | [] => [x]
  | y :: l' => if lt y x then y :: insert_by lt x l' else x :: y :: l'
  end.

Definition sort_by {B} (lt : B -> B -> bool) (l : list B) : list B :=
  foldr (insert_by lt) [] l.

Definition sort (l : list A) : list A := sort_by s_sort_ltb l.

Definition argsort (l : list A) : list nat :=
  map snd (sort_by (fun p q => s_sort_ltb (fst p) (fst q))
                   (zip l (seq 0 (length l)))).

(** [np.arange(n)/n] *)
Definition arange_div (n : nat) : list A :=
  map (fun i => s_div (s_of_nat i) (s_of_nat n)) (seq 0 n).

(** [np.ravel] of a list of one-dimensional arrays *)
Definition ravel (rs : list (list A)) : res (list A) :=
  match rs with
  | [] => Ok []
  | r :: _ =>
      if forallb (fun r' => length r' =? length r) rs
      then Ok (concat rs) else Raise ValueError
  end.

(** [np.max] of a one-dimensional array *)
Definition max (l : list A) : res A :=
  match l with
  | [] => Raise ValueError
  | x :: l' => Ok (foldl s_maximum x l')
  end.

(** [dest[lo:hi] = vals] once [vals] has the shape of the slice *)
Definition set_slice {B} (lo hi : nat) (vals dest : list B) : list B :=
  take lo dest ++ vals ++ drop hi dest.

(** Stretch [v] to the length [n] for an assignment. *)
Definition stretch {B} (n : nat) (v : list B) : res (list B) :=
  if length v =? n then Ok v
  else match v with
       | [x] => Ok (replicate n x)
       | _ => Raise ValueError
       end.

(** [dest[lo:hi] = m], [dest] one-dimensional and [m] two-dimensional: numpy
    drops the leading axes of length one of the value, and the value takes
    the shape of the slice, which stops where [dest] does. *)
Definition assign_row_slice (lo hi : nat) (m : ndarray2 A) (dest : list A) : res (list A) :=
  match nd_rows m with
  | [v] =>
      let? v' := stretch (length (slice lo hi dest)) v in
      Ok (set_slice lo hi v' dest)
  | _ => Raise ValueError
  end.

(** [dest[:, lo:hi] = m], both two-dimensional. *)
Definition assign_col_slice (lo hi : nat) (m dest : ndarray2 A) : res (ndarray2 A) :=
  let width := Nat.min hi (nd_ncols dest) - Nat.min lo (nd_ncols dest) in
  let? rs :=
    (if shape0 m =? shape0 dest then Ok (nd_rows m)
     else match nd_rows m with
          | [v] => Ok (replicate (shape0 dest) v)
          | _ => Raise ValueError
          end) in
  let? rs' := res_mapM (stretch width) rs in
  Ok (Nd2 (zip_with (set_slice lo hi) rs' (nd_rows dest)) (nd_ncols dest)).

(** [np.zeros([r, c])] *)
Definition zeros (r c : nat) : ndarray2 A :=
  Nd2 (replicate r (replicate c (s_of_nat 0))) c.

End Np.
End Np.

(** ** The libraries the code calls *)

(** A GPy kernel expression. *)
Inductive Kernel : Set :=
| Linear (input_dim : nat)
| RBF (input_dim : nat)
| KAdd (k1 k2 : Kernel)
| Coregionalize (input_dim output_dim : nat)
| KProd (k1 k2 : Kernel) (name : string).

(** What [scipy.optimize.minimize] returns. *)
Record OptimizeResult (A : Type) : Type := {
  opt_x : A;
  opt_success : bool;
  opt_message : string
}.
Arguments opt_x {A} _.
Arguments opt_success {A} _.
Arguments opt_message {A} _.

(** What [scipy.optimize.leastsq] returns with [full_output=True]: the tuple
    [(x, cov_x, infodict, mesg, ier)], of which the code reads [res[0]],
    [res[3]] and [res[-1]]. *)
Record LeastsqResult (A : Type) : Type := {
  lsq_x : list A;
  lsq_mesg : string;
  lsq_ier : Z
}.
Arguments lsq_x {A} _.
Arguments lsq_mesg {A} _.
Arguments lsq_ier {A} _.

Class Lib (A : Type) : Type := {
  gp_model : Type;
  (* latin_hypercube *)
  map_to_unit_cube : list A -> ndarray2 A -> res (list A);
  (* numpy *)
  np_mean : list A -> A;
  np_sum : list A -> A;
  np_sqrt : A -> A;
  np_log10 : A -> A;
  np_power : A -> A -> A;
  (* scipy *)
  erf : A -> A;
  minimize : (A -> A) -> A -> res (OptimizeResult A);
  leastsq : (list A -> res (list A)) -> list A -> res (LeastsqResult A);
  (* GPy *)
  GPRegression : ndarray2 A -> ndarray2 A -> Kernel -> A -> res gp_model;
  gp_optimize : gp_model -> res gp_model;
  gp_predict : gp_model -> ndarray2 A -> res (ndarray2 A * ndarray2 A)
}.

(** What the code prints. *)
Inductive event (A : Type) : Type :=
| PrintRescaling (sdscale : A)
| PrintMessage (msg : string)
| PrintBadInterpolation (at_ : list nat) (worst : A).
Arguments PrintRescaling {A} sdscale.
Arguments PrintMessage {A} msg.
Arguments PrintBadInterpolation {A} at_ worst.

(** ** State and exceptions *)

Definition M (S X : Type) : Type := S -> res (X * S).

Definition mret {S X} (x : X) : M S X := fun s => Ok (x, s).

Definition mbind {S X Y} (m : M S X) (k : X -> M S Y) : M S Y :=
  fun s => match m s with
           | Ok (x, s') => k x s'
           | Raise e => Raise e
           end.

Definition lift {S X} (r : res X) : M S X :=
  fun s => match r with Ok x => Ok (x, s) | Raise e => Raise e end.

Definition get {S} : M S S := fun s => Ok (s, s).
Definition modify {S} (f : S -> S) : M S unit := fun s => Ok (tt, f s).

Notation "'let!' x ':=' m 'in' k" := (mbind m (fun x => k))
  (at level 10, x pattern, m at level 100, k at level 200,
   format "'[v' 'let!'  x  ':='  m  'in' '/' k ']'").
Notation "m ;;; k" := (mbind m (fun _ => k))
  (at level 100, k at level 200, right associativity).

Fixpoint mmapM {S X Y} (f : X -> M S Y) (l : list X) : M S (list Y) :=
  match l with
  | [] => mret []
  | a :: l' =>
      let! b := f a in
      let! bs := mmapM f l' in
      mret (b :: bs)
  end.

(** ** [gpemulator.SkLearnGP] *)

Module SkLearnGP.
Section SkLearnGP.
Context {A : Type} {SA : Scalar A} {LA : Lib A}.

(** The attributes of the object; [None] is an attribute not set yet. *)
Record obj : Type := Obj {
  params : ndarray2 A;
  param_limits : ndarray2 A;
  intol : A;
  _test_interp : bool;
  coreg : bool;
  sdscale : A;
  scalefactors : option (list A);
  paramzero : option (list A);
  gp : option gp_model
}.

Definition set_sdscale (v : A) (o : obj) : obj :=
  Obj (params o) (param_limits o) (intol o) (_test_interp o) (coreg o) v
      (scalefactors o) (paramzero o) (gp o).
Definition set_scalefactors (v : list A) (o : obj) : obj :=
  Obj (params o) (param_limits o) (intol o) (_test_interp o) (coreg o)
      (sdscale o) (Some v) (paramzero o) (gp o).
Definition set_paramzero (v : list A) (o : obj) : obj :=
  Obj (params o) (param_limits o) (intol o) (_test_interp o) (coreg o)
      (sdscale o) (scalefactors o) (Some v) (gp o).
Definition set_gp (v : gp_model) (o : obj) : obj :=
  Obj (params o) (param_limits o) (intol o) (_test_interp o) (coreg o)
      (sdscale o) (scalefactors o) (paramzero o) (Some v).
Definition set_test_interp (v : bool) (o : obj) : obj :=
  Obj (params o) (param_limits o) (intol o) v (coreg o)
      (sdscale o) (scalefactors o) (paramzero o) (gp o).

(** A method runs on the object and on what has been printed so far. *)
Definition world : Type := obj * list (event A).
Definition method (X : Type) : Type := M world X.

Definition self : method obj := fun w => Ok (fst w, w).
Definition assign (f : obj -> obj) : method unit :=
  modify (fun w : world => (f (fst w), snd w)).
Definition print (ev : event A) : method unit :=
  modify (fun w : world => (fst w, snd w ++ [ev])).
Definition attr {X} (f : obj -> option X) : method X :=
  fun w => match f (fst w) with
           | Some x => Ok (x, w)
           | None => Raise AttributeError
           end.

(** [np.array([map_to_unit_cube(pp, self.param_limits) for pp in params])] *)
Definition unit_cube (limits : ndarray2 A) (ps : ndarray2 A) : res (ndarray2 A) :=
  let? rs := res_mapM (fun pp => map_to_unit_cube pp limits) (nd_rows ps) in
  Np.array rs.

(** [flux_vectors/self.scalefactors - 1.] *)
Definition normalise (flux_vectors : ndarray2 A) (sf : list A) : res (ndarray2 A) :=
  let? q := Np.bcast21 s_div flux_vectors sf in
  Ok (Np.map2d (fun x => s_sub x (s_of_Q 1)) q).

(** [(flux_predict+1)*self.scalefactors] *)
Definition denormalise (flux_predict : ndarray2 A) (sf : list A) : res (ndarray2 A) :=
  Np.bcast21 s_mul (Np.map2d (fun x => s_add x (s_of_nat 1)) flux_predict) sf.

(** [np.argsort(np.mean(flux_vectors, axis=1))[np.shape(flux_vectors)[0]//2]] *)
Definition median_index (flux_vectors : ndarray2 A) : res nat :=
  of_option IndexError
    (Np.argsort (map np_mean (nd_rows flux_vectors)) !! (Np.shape0 flux_vectors / 2)).

Definition make_kernel (use_coreg : bool) (nparams noutput : nat) : Kernel :=
  let kernel := KAdd (Linear nparams) (RBF nparams) in
  if use_coreg && (1 <? noutput)
  then KProd kernel (Coregionalize nparams noutput) "coreg.kern"
  else kernel.

Definition predict (ps : ndarray2 A) : method (ndarray2 A * ndarray2 A) :=
  let! o := self in
  let! params_cube := lift (unit_cube (param_limits o) ps) in
  let! g := attr gp in
  let! (flux_predict, var) := lift (gp_predict g params_cube) in
  let! sf := attr scalefactors in
  let! mean := lift (denormalise flux_predict sf) in
  let! o := self in
  let! sf := attr scalefactors in
  let! std := lift (Np.bcast21 s_mul
                      (Np.map2d (fun v => s_mul (sdscale o) (np_sqrt v)) var) sf) in
  mret (mean, std).

Definition get_predict_error (test_params : ndarray2 A) (test_exact : list A)
  : method (ndarray2 A) :=
  let! test_exact := lift (Np.reshape_rows (Np.shape0 test_params) test_exact) in
  let! (predict_, sigma) := predict test_params in
  let! d := lift (Np.bcast2 s_sub test_exact predict_) in
  lift (Np.bcast2 s_div d sigma).

(** The check of the built emulator, run when [self._test_interp] is set. *)
Definition test_interp (ps flux_vectors : ndarray2 A) : method unit :=
  let! p0 := lift (Np.row ps 0) in
  let! (test, _) := predict (Np.reshape_row p0) in
  let! t0 := lift (Np.row test 0) in
  let! f0 := lift (Np.row flux_vectors 0) in
  let! q := lift (Np.bcast1 s_div t0 f0) in
  let worst := map (fun x => s_abs (s_sub x (s_of_nat 1))) q in
  let! mx := lift (Np.max worst) in
  let! o := self in
  (if s_ltb (intol o) mx
   then print (PrintBadInterpolation
                 (Np.where_ (map (fun w => s_ltb (s_mul mx (s_of_Q 0.9)) w) worst)) mx) ;;;
        (if s_ltb mx (intol o) then mret tt else lift (Raise AssertionError))
   else mret tt) ;;;
  assign (set_test_interp false).

Definition _get_interp (ps flux_vectors : ndarray2 A) : method unit :=
  let nparams := Np.shape1 ps in
  let! o := self in
  let! params_cube := lift (unit_cube (param_limits o) ps) in
  let! medind := lift (median_index flux_vectors) in
  let! sf := lift (Np.row flux_vectors medind) in
  assign (set_scalefactors sf) ;;;
  let! pz := lift (Np.row params_cube medind) in
  assign (set_paramzero pz) ;;;
  let! sf := attr scalefactors in
  let! normspectra := lift (normalise flux_vectors sf) in
  let! o := self in
  let noutput := Np.shape1 normspectra in
  let kernel := make_kernel (coreg o) nparams noutput in
  let! g := lift (GPRegression params_cube normspectra kernel (s_of_Q 1e-10)) in
  assign (set_gp g) ;;;
  let! g := attr gp in
  let! g' := lift (gp_optimize g) in
  assign (set_gp g') ;;;
  let! o := self in
  if _test_interp o then test_interp ps flux_vectors else mret tt.

Definition _get_cv_one (exclude : nat) (ps powers : ndarray2 A) : method (list A) :=
  let npowers := Np.shape0 powers in
  let mask := Np.arange_ne npowers exclude in
  let! expowers := lift (Np.mask_rows powers mask) in
  let! exparams := lift (Np.mask_rows ps mask) in
  _get_interp exparams expowers ;;;
  let! test_exact := lift (Np.row powers exclude) in
  let! pe := lift (Np.row ps exclude) in
  let! errs := get_predict_error (Np.reshape_row pe) test_exact in
  lift (Np.row errs 0).

(** The function [normal] that [cv_rescale] hands to the optimiser. *)
Definition normal (scales cumsum : list A) (sigma : A) : A :=
  let gauss :=
    map (fun s => s_mul (s_of_Q 0.5)
                    (s_add (s_of_nat 1)
                       (erf (s_div (s_div s (np_sqrt (s_of_nat 2))) sigma))))
        scales in
  np_sum (zip_with (fun g c => let d := s_sub g c in s_mul d d) gauss cumsum).

Definition cv_rescale (ps powers : ndarray2 A) : method A :=
  let npowers := Np.shape0 powers in
  let! scales := mmapM (fun ex => _get_cv_one ex ps powers) (seq 0 npowers) in
  let! scales := lift (Np.ravel scales) in
  let scales := Np.sort scales in
  let cumsum := Np.arange_div (length scales) in
  let! r := lift (minimize (normal scales cumsum) (s_of_nat 1)) in
  (if negb (opt_success r) then print (PrintMessage (opt_message r)) else mret tt) ;;;
  mret (opt_x r).

(** [__init__], from what has been printed so far to the object built. *)
Definition init (ps powers limits : ndarray2 A) (use_coreg cv : bool)
  : list (event A) -> res (obj * list (event A)) :=
  fun out =>
    let o := Obj ps limits (s_of_Q 3e-5) false use_coreg (s_of_nat 1) None None None in
    let body : method unit :=
      (if cv
       then let! sd := cv_rescale ps powers in assign (set_sdscale sd)
       else mret tt) ;;;
      let! o := self in
      print (PrintRescaling (sdscale o)) ;;;
      let! o := self in
      _get_interp (params o) powers in
    match body (o, out) with
    | Ok (_, w) => Ok w
    | Raise e => Raise e
    end.

End SkLearnGP.
End SkLearnGP.

(** ** [gpemulator.MultiBinGP] *)

Module MultiBinGP.
Section MultiBinGP.
Context {A : Type} {SA : Scalar A} {LA : Lib A}.

Record obj : Type := Obj {
  kf : list A;
  nk : nat;
  nz : nat;
  coreg : bool;
  gps : list (SkLearnGP.obj (A:=A))
}.

(** [__init__], on what has been printed so far. *)
Definition init (ps : ndarray2 A) (kf_ : list A) (powers limits : ndarray2 A)
    (use_coreg : bool) : M (list (event A)) obj :=
  let nk_ := length kf_ in
  if nk_ =? 0 then lift (Raise ZeroDivisionError)
  else if negb (Np.shape1 powers mod nk_ =? 0) then lift (Raise AssertionError)
  else
    let nz_ := Np.shape1 powers / nk_ in
    let gp_ i :=
      SkLearnGP.init ps (Np.col_slice powers (i * nk_) ((i + 1) * nk_))
        limits use_coreg true in
    let! gps_ := mmapM gp_ (seq 0 nz_) in
    mret (Obj kf_ nk_ nz_ use_coreg gps_).

(** The arrays of the caller live in a store: [predict] receives a reference. *)
Definition loc : Type := nat.
Definition heap : Type := gmap nat (ndarray2 A).

Definition load (l : loc) : M heap (ndarray2 A) :=
  fun h => match h !! l with
           | Some m => Ok (m, h)
           | None => Raise AttributeError
           end.

Definition alloc (m : ndarray2 A) : M heap loc :=
  fun h => let l := fresh (dom h) in Ok (l, <[l := m]> h).

(** [np.array(a)]: a new array with the contents of [a] *)
Definition np_array_copy (l : loc) : M heap loc :=
  let! m := load l in alloc m.

(** [a[0][0] *= t], in place *)
Definition imul00 (l : loc) (t : A) : M heap unit :=
  fun h =>
    match h !! l with
    | None => Raise AttributeError
    | Some m =>
        match nd_rows m with
        | [] => Raise IndexError
        | [] :: _ => Raise IndexError
        | (x :: r) :: rs =>
            Ok (tt, <[l := Nd2 ((s_mul x t :: r) :: rs) (nd_ncols m)]> h)
        end
    end.

(** [gp.predict(zparams)]: the emulator reads the array and prints nothing. *)
Definition gp_predict_at (g : SkLearnGP.obj) (z : loc)
  : M heap (ndarray2 A * ndarray2 A) :=
  let! m := load z in
  lift (match SkLearnGP.predict m (g, []) with
        | Ok (r, _) => Ok r
        | Raise e => Raise e
        end).

(** The body of the loop of [predict] for the bin [i]. *)
Definition predict_bin (nk_ : nat) (ps : loc) (tau0_factors : option (list A))
    (i : nat) (g : SkLearnGP.obj) (acc : ndarray2 A * ndarray2 A)
  : M heap (ndarray2 A * ndarray2 A) :=
  let (means, std) := acc in
  let! zparams := np_array_copy ps in
  (match tau0_factors with
   | Some taus =>
       let! t := lift (of_option IndexError (taus !! i)) in
       imul00 zparams t
   | None => mret tt
   end) ;;;
  let! (m, s) := gp_predict_at g zparams in
  let! row0 := lift (Np.row means 0) in
  let! row0' := lift (Np.assign_row_slice (i * nk_) ((i + 1) * nk_) m row0) in
  let means := Nd2 (<[0 := row0']> (nd_rows means)) (nd_ncols means) in
  let! std := lift (Np.assign_col_slice (i * nk_) ((i + 1) * nk_) s std) in
  mret (means, std).

Fixpoint predict_loop (nk_ : nat) (ps : loc) (tau0_factors : option (list A))
    (i : nat) (gs : list SkLearnGP.obj) (acc : ndarray2 A * ndarray2 A)
  : M heap (ndarray2 A * ndarray2 A) :=
  match gs with
  | [] => mret acc
  | g :: gs' =>
      let! acc' := predict_bin nk_ ps tau0_factors i g acc in
      predict_loop nk_ ps tau0_factors (S i) gs' acc'
  end.

Definition predict (o : obj) (ps : loc) (tau0_factors : option (list A))
  : M heap (ndarray2 A * ndarray2 A) :=
  let! p := load ps in
  let nstd :=
    Z.to_nat (1 + (if coreg o then 1 else 0) * (Z.of_nat (Np.shape1 p) - 1))%Z in
  let std := Np.zeros nstd (nk o * nz o) in
  let means := Np.zeros 1 (nk o * nz o) in
  predict_loop (nk o) ps tau0_factors 0 (gps o) (means, std).

End MultiBinGP.
End MultiBinGP.

(** ** [lyaemu/tempdens.fit_temp_dens_relation] *)

Module TempDens.
Section TempDens.
Context {A : Type} {SA : Scalar A} {LA : Lib A}.

(** [min_func] of the source, on the selected points. *)
Definition min_func (logofor logtfor : list A) (param : list A) : res (list A) :=
  let? logT0 := of_option IndexError (param !! 0) in
  let? gammam1 := of_option IndexError (param !! 1) in
  Np.bcast1 s_sub logtfor (map (fun x => s_add logT0 (s_mul gammam1 x)) logofor).

Definition fit_temp_dens_relation (logoverden logT : list A)
  : M (list (event A)) (A * A) :=
  let! mask := lift (Np.bcast1 andb
                       (map (fun x => s_ltb x (s_of_Q 1.0)) logoverden)
                       (map (fun x => s_ltb x (s_of_Q 5.0)) logT)) in
  let ind := Np.where_ mask in
  let! logofor := lift (Np.take_idx logoverden ind) in
  let! logtfor := lift (Np.take_idx logT ind) in
  let! r := lift (leastsq (min_func logofor logtfor)
                    [np_log10 (s_of_Q 1e4); s_of_Q 0.5]) in
  let params := lsq_x r in
  (if (lsq_ier r <=? 0)%Z
   then modify (fun out => out ++ [PrintMessage (lsq_mesg r)])
   else mret tt) ;;;
  let! p0 := lift (of_option IndexError (params !! 0)) in
  let! p1 := lift (of_option IndexError (params !! 1)) in
  mret (np_power (s_of_nat 10) p0, s_add p1 (s_of_nat 1)).

End TempDens.
End TempDens.

(** ** [main.py] *)

Module Main.
Section Main.

(** The arguments of the call of [plot_test_interpolate_kf_bin_loop]. *)
Record plot_call : Type := PlotCall {
  emudir : string;
  testdir : string;
  savedir : string;
  plotname : string;
  kf_bin_nums : list nat
}.

(** The plotting routine, of [coarse_grid_plot]: what it does is its own. *)
Variable plot_test_interpolate_kf_bin_loop : plot_call -> res unit.

(** The script, on [sys.argv]. *)
Definition main (argv : list string) : res unit :=
  let? sim_rootdir := of_option IndexError (argv !! 1) in
  let? savedir_ := of_option IndexError (argv !! 2) in
  let testdir_ := (sim_rootdir ++ "/Lya_Boss/hires_knots_test")%string in
  let emudir_ := (sim_rootdir ++ "/Lya_Boss/hires_knots")%string in
  plot_test_interpolate_kf_bin_loop
    (PlotCall emudir_ testdir_ savedir_ "_Two_loop" (seq 0 2)).

End Main.
End Main.

(** ** A stand-in library

    To run the definitions on concrete arrays: reductions that add from the
    left, an emulator that answers with its prior (mean zero, variance one),
    and optimisers that return their starting point and report [converged]. *)

Module StandIn.

Definition sum (l : list float) : float := foldl PrimFloat.add 0%float l.

(** The number of elements, counted in binary64. *)
Definition count (l : list float) : float :=
  foldl (fun n _ => PrimFloat.add n 1%float) 0%float l.

Definition mean (l : list float) : float := PrimFloat.div (sum l) (count l).

Definition sigmoid (x : float) : float :=
  PrimFloat.div x (PrimFloat.add 1%float (PrimFloat.abs x)).

Definition fit (X Y : ndarray2 float) (k : Kernel) (noise : float)
  : res (ndarray2 float * ndarray2 float) :=
  if Np.shape0 X =? Np.shape0 Y then Ok (X, Y) else Raise LibraryError.

Definition prior (g : ndarray2 float * ndarray2 float) (Xs : ndarray2 float)
  : res (ndarray2 float * ndarray2 float) :=
  let n := Np.shape0 Xs in
  let k := nd_ncols (snd g) in
  Ok (Nd2 (replicate n (replicate k 0%float)) k, Nd2 (replicate n [1%float]) 1).

Definition lib (converged : bool) : Lib float := {|
  gp_model := ndarray2 float * ndarray2 float;
  map_to_unit_cube := fun pp _ => Ok pp;
  np_mean := mean;
  np_sum := sum;
  np_sqrt := PrimFloat.sqrt;
  np_log10 := fun _ => 4%float;
  np_power := fun b e => PrimFloat.mul b e;
  erf := sigmoid;
  minimize := fun f x0 =>
    Ok {| opt_x := x0; opt_success := converged; opt_message := "stand-in" |};
  leastsq := fun f x0 =>
    let? _ := f x0 in
    Ok {| lsq_x := x0; lsq_mesg := "stand-in";
          lsq_ier := if converged then 1%Z else 0%Z |};
  GPRegression := fit;
  gp_optimize := fun g => Ok g;
  gp_predict := prior
|}.

(** Two training points with two parameters and two bins each. *)
Definition params2 : ndarray2 float :=
  Nd2 [[0.25; 0.5]; [0.75; 0.125]]%float 2.
Definition powers2 : ndarray2 float :=
  Nd2 [[1; 2]; [4; 8]]%float 2.
Definition limits2 : ndarray2 float :=
  Nd2 [[0; 1]; [0; 1]]%float 2.


(** An object before [__init__] has built anything, and nothing printed. *)
Definition world0 (converged : bool)
  : SkLearnGP.world (LA := lib converged) :=
  (SkLearnGP.Obj params2 limits2 (s_of_Q 3e-5) false false (s_of_nat 1)
     None None None, []).

(** An emulator of one bin, and a [MultiBinGP] of two such bins. *)
Definition model1 : gp_model (Lib := lib true) :=
  (params2, Nd2 [[-0.75]; [0]]%float 1).

Definition gp1 : SkLearnGP.obj (LA := lib true) :=
  SkLearnGP.Obj (LA := lib true) params2 limits2 (s_of_Q 3e-5) false false
    (s_of_nat 1) (Some [4%float]) (Some [0.75; 0.125]%float) (Some model1).

Definition multibin2 : MultiBinGP.obj (LA := lib true) :=
  MultiBinGP.Obj [1%float] 1 2 false [gp1; gp1].

(** The store of a caller that holds one array of parameters at [0]. *)
Definition query : ndarray2 float := Nd2 [[0.5; 0.25]]%float 2.
Definition heap1 : gmap nat (ndarray2 float) := {[ 0 := query ]}.

End StandIn.

(** ** Specification-side definitions *)


(** What [SkLearnGP._get_interp] computes from the training set, apart from
    the object it stores it in: the median spectrum, its unit-cube
    parameters and the optimised model, in the order of the source. *)
Definition interp_of {A : Type} {SA : Scalar A} {LA : Lib A}
    (limits : ndarray2 A) (use_coreg : bool) (ps flux_vectors : ndarray2 A)
  : res (list A * list A * gp_model) :=
  let? params_cube := SkLearnGP.unit_cube limits ps in
  let? medind := SkLearnGP.median_index flux_vectors in
  let? sf := Np.row flux_vectors medind in
  let? pz := Np.row params_cube medind in
  let? normspectra := SkLearnGP.normalise flux_vectors sf in
  let kernel :=
    SkLearnGP.make_kernel use_coreg (Np.shape1 ps) (Np.shape1 normspectra) in
  let? g := GPRegression params_cube normspectra kernel (s_of_Q 1e-10) in
  let? g' := gp_optimize g in
  Ok (sf, pz, g').

(** What a fold of the cross-validation leaves of the object: the training
    set, the limits and the flags; the model and its normalisation are the
    fold's. *)
Definition same_config {A : Type} {LA : Lib A} (o o' : SkLearnGP.obj (A:=A))
  : Prop :=
  SkLearnGP.params o' = SkLearnGP.params o /\
  SkLearnGP.param_limits o' = SkLearnGP.param_limits o /\
  SkLearnGP.intol o' = SkLearnGP.intol o /\
  SkLearnGP._test_interp o' = SkLearnGP._test_interp o /\
  SkLearnGP.coreg o' = SkLearnGP.coreg o /\
  SkLearnGP.sdscale o' = SkLearnGP.sdscale o.


Section SpecDefs.
Context {A : Type} {SA : Scalar A} {LA : Lib A}.



(** The points of the temperature-density relation the fit keeps. *)
Definition selected_points (logoverden logT : list A) : list (A * A) :=
  filter (fun p => s_ltb (fst p) (s_of_Q 1.0) && s_ltb (snd p) (s_of_Q 5.0) = true)
         (zip logoverden logT).

(** The residuals of the power law [logT = logT0 + gammam1*logoverden]. *)
Definition power_law_residuals (pts : list (A * A)) (param : list A)
  : res (list A) :=
  match param with
  | logT0 :: gammam1 :: _ =>
      Ok (map (fun p => s_sub (snd p) (s_add logT0 (s_mul gammam1 (fst p)))) pts)
  | _ => Raise IndexError
  end.

(** The object at the start of [SkLearnGP.__init__]. *)
Definition new_obj (ps limits : ndarray2 A) (use_coreg : bool) : SkLearnGP.obj :=
  SkLearnGP.Obj ps limits (s_of_Q 3e-5) false use_coreg (s_of_nat 1)
    None None None.

End SpecDefs.

(** A store [h'] keeps the arrays of [h]. *)
Definition keeps {A : Type} (h h' : MultiBinGP.heap (A := A)) : Prop :=
  forall l m, h !! l = Some m -> h' !! l = Some m.

(** [MultiBinGP.predict] without the store: what each bin is asked and how
    the answers are written, from the contents [p] of the caller's array. *)
Section MultiBinSpec.
Context {A : Type} {SA : Scalar A} {LA : Lib A}.

(** The array with its entry [[0][0]] multiplied by [t]. *)
Definition scale00 (p : ndarray2 A) (t : A) : res (ndarray2 A) :=
  match nd_rows p with
  | (x :: r) :: rs => Ok (Nd2 ((s_mul x t :: r) :: rs) (nd_ncols p))
  | _ => Raise IndexError
  end.

(** The parameters the bin [i] is asked at. *)
Definition bin_input (p : ndarray2 A) (tau0_factors : option (list A))
    (i : nat) : res (ndarray2 A) :=
  match tau0_factors with
  | Some taus =>
      let? t := of_option IndexError (taus !! i) in
      scale00 p t
  | None => Ok p
  end.

Definition run_predict (g : SkLearnGP.obj) (z : ndarray2 A)
  : res (ndarray2 A * ndarray2 A) :=
  match SkLearnGP.predict z (g, []) with
  | Ok (r, _) => Ok r
  | Raise e => Raise e
  end.

(** The two assignments at the end of the loop body. *)
Definition write_bin (nk_ i : nat) (m s : ndarray2 A)
    (acc : ndarray2 A * ndarray2 A) : res (ndarray2 A * ndarray2 A) :=
  let (means, std) := acc in
  let? row0 := Np.row means 0 in
  let? row0' := Np.assign_row_slice (i * nk_) ((i + 1) * nk_) m row0 in
  let means := Nd2 (<[0 := row0']> (nd_rows means)) (nd_ncols means) in
  let? std := Np.assign_col_slice (i * nk_) ((i + 1) * nk_) s std in
  Ok (means, std).

Definition predict_bin_pure (nk_ : nat) (p : ndarray2 A)
    (tau0_factors : option (list A)) (i : nat) (g : SkLearnGP.obj)
    (acc : ndarray2 A * ndarray2 A) : res (ndarray2 A * ndarray2 A) :=
  let? z := bin_input p tau0_factors i in
  let? (m, s) := run_predict g z in
  write_bin nk_ i m s acc.

Fixpoint predict_loop_pure (nk_ : nat) (p : ndarray2 A)
    (tau0_factors : option (list A)) (i : nat) (gs : list SkLearnGP.obj)
    (acc : ndarray2 A * ndarray2 A) : res (ndarray2 A * ndarray2 A) :=
  match gs with
  | [] => Ok acc
  | g :: gs' =>
      let? acc' := predict_bin_pure nk_ p tau0_factors i g acc in
      predict_loop_pure nk_ p tau0_factors (S i) gs' acc'
  end.

Definition predict_pure (o : MultiBinGP.obj) (p : ndarray2 A)
    (tau0_factors : option (list A)) : res (ndarray2 A * ndarray2 A) :=
  let nstd :=
    Z.to_nat (1 + (if MultiBinGP.coreg o then 1 else 0)
                  * (Z.of_nat (Np.shape1 p) - 1))%Z in
  predict_loop_pure (MultiBinGP.nk o) p tau0_factors 0 (MultiBinGP.gps o)
    (Np.zeros 1 (MultiBinGP.nk o * MultiBinGP.nz o),
     Np.zeros nstd (MultiBinGP.nk o * MultiBinGP.nz o)).

End MultiBinSpec.

(** * Properties *)

(** ** The monads *)

Section MonadLemmas.
Context {S X Y : Type}.

Lemma mbind_ok (m : M S X) (k : X -> M S Y) s y s' :
  mbind m k s = Ok (y, s') <->
  exists x s1, m s = Ok (x, s1) /\ k x s1 = Ok (y, s').
Proof.
  unfold mbind. split.
  - destruct (m s) as [[x s1]|e]; [eauto | discriminate].
  - intros (x & s1 & -> & Hk). exact Hk.
Qed.

Lemma mbind_step (m : M S X) (k : X -> M S Y) s x s1 :
  m s = Ok (x, s1) -> mbind m k s = k x s1.
Proof. unfold mbind. intros ->. reflexivity. Qed.

Lemma mbind_raise (m : M S X) (k : X -> M S Y) s e :
  m s = Raise e -> mbind m k s = Raise e.
Proof. unfold mbind. intros ->. reflexivity. Qed.

Lemma lift_ok (r : res X) (s : S) x s' :
  lift r s = Ok (x, s') <-> r = Ok x /\ s' = s.
Proof.
  unfold lift. destruct r; split; intros Hx; try discriminate.
  - inversion Hx. auto.
  - destruct Hx as [Hx ->]. inversion Hx. reflexivity.
  - destruct Hx as [Hx _]. discriminate.
Qed.

End MonadLemmas.

Lemma res_bind_ok {X Y} (r : res X) (k : X -> res Y) y :
  res_bind r k = Ok y <-> exists x, r = Ok x /\ k x = Ok y.
Proof.
  destruct r; simpl; split.
  - eauto.
  - intros (x & Hx & Hk). inversion Hx. subst. exact Hk.
  - discriminate.
  - intros (x & Hx & _). discriminate.
Qed.

(** Peel the binds of a computation that returned. *)
Ltac minv H :=
  repeat match type of H with
  | mbind _ _ _ = Ok _ =>
      let x := fresh "x" in let s := fresh "s" in
      let H1 := fresh "Hm" in
      apply mbind_ok in H; destruct H as (x & s & H1 & H);
      try (apply lift_ok in H1; destruct H1 as [H1 ->])
  | res_bind _ _ = Ok _ =>
      let x := fresh "x" in let H1 := fresh "Hr" in
      apply res_bind_ok in H; destruct H as (x & H1 & H)
  | lift _ _ = Ok _ => apply lift_ok in H; destruct H as [H ->]
  | mret _ _ = Ok _ => inversion H; clear H; subst
  | Ok _ = Ok _ => inversion H; clear H; subst
  end.

(** ** Leave-one-out masks *)

Lemma bool_index_arange_ne {B} (l : list B) (k ex : nat) :
  Np.bool_index l (map (fun i => negb (i =? ex)) (seq k (length l))) =
  if ex <? k then l else delete (ex - k) l.
Proof.
  revert k. induction l as [|x l IH]; intros k; simpl.
  - destruct (ex <? k); reflexivity.
  - rewrite IH. destruct (Nat.eqb_spec k ex) as [->|Hne]; simpl.
    + rewrite Nat.sub_diag.
      destruct (Nat.ltb_spec ex ex); [lia|].
      destruct (Nat.ltb_spec ex (S ex)); [reflexivity | lia].
    + destruct (Nat.ltb_spec ex k), (Nat.ltb_spec ex (S k)); try lia.
      * reflexivity.
      * replace (ex - k) with (S (ex - S k)) by lia. reflexivity.
Qed.

Lemma mask_rows_leave_one_out {B} (m : ndarray2 B) (ex : nat) :
  Np.mask_rows m (Np.arange_ne (Np.shape0 m) ex) =
  Ok (Nd2 (delete ex (nd_rows m)) (nd_ncols m)).
Proof.
  unfold Np.mask_rows, Np.arange_ne, Np.shape0.
  rewrite length_map, length_seq, Nat.eqb_refl.
  rewrite bool_index_arange_ne. simpl. rewrite Nat.sub_0_r. reflexivity.
Qed.




Section CrossValidation.
Context {A : Type} {SA : Scalar A} {LA : Lib A}.

Lemma mbind_lift_ok {S X Y} (x : X) (k : X -> M S Y) (s : S) :
  mbind (lift (Ok x)) k s = k x s.
Proof. reflexivity. Qed.


End CrossValidation.


(** ** The command line *)

(** C9. The script reads two positional arguments, the simulation root
    directory and the save directory, and calls the plotting routine with the
    directories made from them; further arguments are not read.  With fewer
    than two arguments, [sys.argv[1]] or [sys.argv[2]] raises [IndexError]
    before anything is plotted, and nothing catches it. *)
Theorem C9_main_two_arguments (plot : Main.plot_call -> res unit)
    (script sim_rootdir savedir : string) (more : list string) :
  Main.main plot (script :: sim_rootdir :: savedir :: more) =
    plot (Main.PlotCall (sim_rootdir ++ "/Lya_Boss/hires_knots")
            (sim_rootdir ++ "/Lya_Boss/hires_knots_test")
            savedir "_Two_loop" [0; 1]) /\
  Main.main plot [script; sim_rootdir] = Raise IndexError /\
  Main.main plot [script] = Raise IndexError /\
  Main.main plot [] = Raise IndexError.
Proof. repeat split. Qed.

(** ** Sorting *)

Section Sorting.
Context {B : Type} (lt : B -> B -> bool).

Lemma insert_by_perm (x : B) (l : list B) : Np.insert_by lt x l ≡ₚ x :: l.
Proof.
  induction l as [|y l IH]; simpl; [reflexivity|].
  destruct (lt y x); [|reflexivity].
  rewrite IH. apply Permutation_swap.
Qed.

Lemma sort_by_perm (l : list B) : Np.sort_by lt l ≡ₚ l.
Proof.
  induction l as [|x l IH]; simpl; [reflexivity|].
  rewrite insert_by_perm, IH. reflexivity.
Qed.


End Sorting.




Section ArgSort.
Context {A : Type} {SA : Scalar A}.


Lemma argsort_perm (keys : list A) :
  Np.argsort keys ≡ₚ seq 0 (length keys).
Proof.
  unfold Np.argsort. rewrite sort_by_perm.
  change (map snd ?l) with (l.*2).
  rewrite snd_zip by (rewrite length_seq; lia). reflexivity.
Qed.


End ArgSort.

(** ** Broadcasting on arrays of matching shapes *)

Lemma res_mapM_map {X Y} (f : X -> res Y) (g : X -> Y) (l : list X) :
  Forall (fun x => f x = Ok (g x)) l -> res_mapM f l = Ok (map g l).
Proof.
  induction 1 as [|x l Hx _ IH]; simpl; [reflexivity|].
  rewrite Hx, IH. reflexivity.
Qed.

Lemma bcast1_same {B C D} (op : B -> C -> D) (u : list B) (v : list C) :
  length u = length v -> Np.bcast1 op u v = Ok (zip_with op u v).
Proof. intros Hl. unfold Np.bcast1. rewrite Hl, Nat.eqb_refl. reflexivity. Qed.

Lemma map_zip_with {B C D E} (g : D -> E) (f : B -> C -> D) l k :
  map g (zip_with f l k) = zip_with (fun x y => g (f x y)) l k.
Proof.
  revert k. induction l as [|x l IH]; intros [|y k]; simpl; try reflexivity.
  rewrite IH. reflexivity.
Qed.

Section Broadcast.
Context {A : Type} {SA : Scalar A}.

Lemma bcast_rows_row (op : A -> A -> A) (rs : list (list A)) (v : list A) :
  Forall (fun r => length r = length v) rs ->
  Np.bcast_rows op rs [v] = Ok (map (fun r => zip_with op r v) rs).
Proof.
  intros Hwf. unfold Np.bcast_rows.
  assert (res_mapM (fun u => Np.bcast1 op u v) rs =
          Ok (map (fun r => zip_with op r v) rs)) as Hmap.
  { apply res_mapM_map. eapply Forall_impl; [exact Hwf|].
    intros r Hr. apply bcast1_same. exact Hr. }
  destruct rs as [|r [|r' rs]]; simpl in *.
  - reflexivity.
  - inversion Hwf; subst. rewrite bcast1_same by assumption. reflexivity.
  - exact Hmap.
Qed.

Lemma bcast21_wf (op : A -> A -> A) (m : ndarray2 A) (v : list A) :
  wf2 m -> nd_ncols m = length v ->
  Np.bcast21 op m v =
  Ok (Nd2 (map (fun r => zip_with op r v) (nd_rows m)) (nd_ncols m)).
Proof.
  intros Hwf Hc. unfold Np.bcast21, Np.bcast2, Np.bshape. simpl.
  rewrite Hc, Nat.eqb_refl. simpl.
  rewrite bcast_rows_row; [reflexivity|].
  eapply Forall_impl; [exact Hwf|]. simpl. intros r Hr. lia.
Qed.

Lemma normalise_wf (m : ndarray2 A) (sf : list A) :
  wf2 m -> nd_ncols m = length sf ->
  SkLearnGP.normalise m sf =
  Ok (Nd2 (map (fun r => zip_with (fun x s => s_sub (s_div x s) (s_of_Q 1)) r sf)
             (nd_rows m)) (nd_ncols m)).
Proof.
  intros Hwf Hc. unfold SkLearnGP.normalise.
  rewrite bcast21_wf by assumption. simpl. unfold Np.map2d. simpl.
  f_equal. f_equal. rewrite map_map. apply map_ext. intros r.
  apply map_zip_with.
Qed.

End Broadcast.

(** ** What the methods of [SkLearnGP] do to the object *)

Section Emulator.
Context {A : Type} {SA : Scalar A} {LA : Lib A}.

Ltac run_res :=
  repeat (simpl;
          match goal with
          | |- context [match ?r with Ok _ => _ | Raise _ => _ end] =>
              destruct r; simpl; try reflexivity
          | |- context [let (_, _) := ?p in _] => destruct p; simpl
          end).

(** Without the self-test, [_get_interp] stores the result of [interp_of]
    and prints nothing. *)
Lemma get_interp_run (ps flux : ndarray2 A) (o : SkLearnGP.obj)
    (out : list (event A)) :
  SkLearnGP._test_interp o = false ->
  SkLearnGP._get_interp ps flux (o, out) =
  match interp_of (SkLearnGP.param_limits o) (SkLearnGP.coreg o) ps flux with
  | Ok (sf, pz, g) =>
      Ok (tt, (SkLearnGP.Obj (SkLearnGP.params o) (SkLearnGP.param_limits o)
                 (SkLearnGP.intol o) false (SkLearnGP.coreg o)
                 (SkLearnGP.sdscale o) (Some sf) (Some pz) (Some g), out))
  | Raise e => Raise e
  end.
Proof.
  intros Htest. unfold SkLearnGP._get_interp, interp_of.
  cbv [mbind SkLearnGP.self lift SkLearnGP.assign modify SkLearnGP.attr mret].
  simpl.
  destruct (SkLearnGP.unit_cube _ ps) as [cube|]; simpl; [|reflexivity].
  destruct (SkLearnGP.median_index flux) as [medind|]; simpl; [|reflexivity].
  destruct (Np.row flux medind) as [sf|]; simpl; [|reflexivity].
  destruct (Np.row cube medind) as [pz|]; simpl; [|reflexivity].
  destruct (SkLearnGP.normalise flux sf) as [norm|]; simpl; [|reflexivity].
  destruct (GPRegression _ _ _ _) as [g|]; simpl; [|reflexivity].
  destruct (gp_optimize g) as [g'|]; simpl; [|reflexivity].
  rewrite Htest. unfold SkLearnGP.set_gp, SkLearnGP.set_paramzero,
    SkLearnGP.set_scalefactors. simpl. rewrite Htest. reflexivity.
Qed.

Ltac run_in H :=
  cbv [mbind SkLearnGP.self lift SkLearnGP.assign modify SkLearnGP.attr
         SkLearnGP.print mret] in H;
  simpl in H; repeat case_match; simplify_eq.

(** [predict] and [get_predict_error] read the object and print nothing. *)
Lemma predict_reads (ps : ndarray2 A) (w w' : SkLearnGP.world) r :
  SkLearnGP.predict ps w = Ok (r, w') -> w' = w.
Proof.
  intros Hp. unfold SkLearnGP.predict in Hp. run_in Hp. reflexivity.
Qed.

Lemma get_predict_error_reads (ps : ndarray2 A) (te : list A)
    (w w' : SkLearnGP.world) r :
  SkLearnGP.get_predict_error ps te w = Ok (r, w') -> w' = w.
Proof.
  intros Hp. unfold SkLearnGP.get_predict_error in Hp.
  apply mbind_ok in Hp as (x & s & Hx & Hp).
  apply lift_ok in Hx as [_ ->].
  apply mbind_ok in Hp as ([pr sg] & s & Hx & Hp).
  apply predict_reads in Hx as ->.
  apply mbind_ok in Hp as (d & s & Hx & Hp).
  apply lift_ok in Hx as [_ ->].
  apply lift_ok in Hp as [_ ->]. reflexivity.
Qed.

Lemma same_config_refl o : same_config o o.
Proof. repeat split. Qed.

Lemma same_config_trans o1 o2 o3 :
  same_config o1 o2 -> same_config o2 o3 -> same_config o1 o3.
Proof. unfold same_config. intuition congruence. Qed.

Lemma get_interp_config (ps flux : ndarray2 A) o out r o' out' :
  SkLearnGP._test_interp o = false ->
  SkLearnGP._get_interp ps flux (o, out) = Ok (r, (o', out')) ->
  same_config o o' /\ out' = out.
Proof.
  intros Htest Hg. rewrite get_interp_run in Hg by exact Htest.
  destruct (interp_of _ _ ps flux) as [[[sf pz] g]|]; [|discriminate].
  inversion Hg; subst. unfold same_config. simpl. rewrite Htest. auto 10.
Qed.

Lemma get_cv_one_config (ex : nat) (ps powers : ndarray2 A) o out r o' out' :
  SkLearnGP._test_interp o = false ->
  SkLearnGP._get_cv_one ex ps powers (o, out) = Ok (r, (o', out')) ->
  same_config o o' /\ out' = out.
Proof.
  intros Htest Hc. unfold SkLearnGP._get_cv_one in Hc.
  apply mbind_ok in Hc as (x1 & s & Hx & Hc). apply lift_ok in Hx as [_ ->].
  apply mbind_ok in Hc as (x2 & s & Hx & Hc). apply lift_ok in Hx as [_ ->].
  apply mbind_ok in Hc as ([] & [o1 out1] & Hx & Hc).
  apply get_interp_config in Hx as [Hcfg ->]; [|exact Htest].
  apply mbind_ok in Hc as (x3 & s & Hx & Hc). apply lift_ok in Hx as [_ ->].
  apply mbind_ok in Hc as (x4 & s & Hx & Hc). apply lift_ok in Hx as [_ ->].
  apply mbind_ok in Hc as (x5 & s & Hx & Hc).
  apply get_predict_error_reads in Hx as ->.
  apply lift_ok in Hc as [_ Heq]. inversion Heq; subst. auto.
Qed.

Lemma cv_folds_config (ps powers : ndarray2 A) (l : list nat) o out r o' out' :
  SkLearnGP._test_interp o = false ->
  mmapM (fun ex => SkLearnGP._get_cv_one ex ps powers) l (o, out)
    = Ok (r, (o', out')) ->
  same_config o o' /\ out' = out.
Proof.
  revert o out r o' out'.
  induction l as [|ex l IH]; intros o out r o' out' Htest Hm; simpl in Hm.
  - inversion Hm; subst. split; [apply same_config_refl | reflexivity].
  - apply mbind_ok in Hm as (e & [o1 out1] & Hx & Hm).
    apply get_cv_one_config in Hx as [Hcfg ->]; [|exact Htest].
    apply mbind_ok in Hm as (es & [o2 out2] & Hx & Hm).
    apply IH in Hx as [Hcfg' ->].
    + inversion Hm; subst. split; [|reflexivity].
      eapply same_config_trans; eassumption.
    + destruct Hcfg as (_ & _ & _ & -> & _). exact Htest.
Qed.

Lemma cv_rescale_config (ps powers : ndarray2 A) o out sd o' out' :
  SkLearnGP._test_interp o = false ->
  SkLearnGP.cv_rescale ps powers (o, out) = Ok (sd, (o', out')) ->
  same_config o o'.
Proof.
  intros Htest Hc. unfold SkLearnGP.cv_rescale in Hc.
  apply mbind_ok in Hc as (es & [o1 out1] & Hx & Hc).
  apply cv_folds_config in Hx as [Hcfg ->]; [|exact Htest].
  apply mbind_ok in Hc as (fl & s & Hx & Hc). apply lift_ok in Hx as [_ ->].
  apply mbind_ok in Hc as (r & s & Hx & Hc). apply lift_ok in Hx as [_ ->].
  apply mbind_ok in Hc as ([] & [o2 out2] & Hx & Hc).
  inversion Hc; subst.
  destruct (negb (opt_success r)); inversion Hx; subst; exact Hcfg.
Qed.

(** What [predict] returns on an object that holds a model. *)
Lemma predict_run (qs : ndarray2 A) (o : SkLearnGP.obj) out sf g :
  SkLearnGP.gp o = Some g ->
  SkLearnGP.scalefactors o = Some sf ->
  SkLearnGP.predict qs (o, out) =
  match
    (let? cube := SkLearnGP.unit_cube (SkLearnGP.param_limits o) qs in
     let? (flux_predict, var) := gp_predict g cube in
     let? mean := SkLearnGP.denormalise flux_predict sf in
     let? std := Np.bcast21 s_mul
                   (Np.map2d (fun v => s_mul (SkLearnGP.sdscale o) (np_sqrt v)) var)
                   sf in
     Ok (mean, std))
  with
  | Ok r => Ok (r, (o, out))
  | Raise e => Raise e
  end.
Proof.
  intros Hg Hsf. unfold SkLearnGP.predict.
  cbv [mbind SkLearnGP.self lift SkLearnGP.attr mret]. simpl.
  destruct (SkLearnGP.unit_cube _ qs) as [cube|]; simpl; [|reflexivity].
  rewrite Hg.
  destruct (gp_predict g cube) as [[fp var]|]; simpl; [|reflexivity].
  rewrite Hsf.
  destruct (SkLearnGP.denormalise fp sf) as [mean|]; simpl; [|reflexivity].
  rewrite Hsf.
  destruct (Np.bcast21 _ _ sf) as [std|]; simpl; reflexivity.
Qed.

(** C2. When [__init__] returns, the model of the object and its
    normalisation are those of the whole training set: [_get_interp] runs on
    [params] and [powers] after the folds of the cross-validation, whatever
    they left in the object, and every later [predict] answers from that
    model. *)
Theorem C2_init_trains_on_full_set (ps powers limits : ndarray2 A)
    (use_coreg cv : bool) (out out' : list (event A)) (o : SkLearnGP.obj) :
  SkLearnGP.init ps powers limits use_coreg cv out = Ok (o, out') ->
  exists sf pz g,
    interp_of limits use_coreg ps powers = Ok (sf, pz, g) /\
    SkLearnGP.gp o = Some g /\
    SkLearnGP.scalefactors o = Some sf /\
    SkLearnGP.paramzero o = Some pz /\
    forall qs out1,
      SkLearnGP.predict qs (o, out1) =
      match
        (let? cube := SkLearnGP.unit_cube limits qs in
         let? (flux_predict, var) := gp_predict g cube in
         let? mean := SkLearnGP.denormalise flux_predict sf in
         let? std := Np.bcast21 s_mul
                       (Np.map2d (fun v => s_mul (SkLearnGP.sdscale o) (np_sqrt v))
                          var) sf in
         Ok (mean, std))
      with
      | Ok r => Ok (r, (o, out1))
      | Raise e => Raise e
      end.
Proof.
  unfold SkLearnGP.init. intros Hi.
  set (o0 := SkLearnGP.Obj ps limits _ false use_coreg _ None None None) in Hi.
  match type of Hi with
  | match ?b (o0, out) with _ => _ end = _ => destruct (b (o0, out)) as [[[] [o1 out1]]|] eqn:Hb
  end; [|discriminate].
  inversion Hi; subst o1 out1. clear Hi.
  apply mbind_ok in Hb as ([] & [o1 out1] & Hcv & Hb).
  assert (SkLearnGP.params o1 = ps /\ SkLearnGP.param_limits o1 = limits /\
          SkLearnGP._test_interp o1 = false /\
          SkLearnGP.coreg o1 = use_coreg) as (Hps & Hlim & Htest & Hco).
  { destruct cv.
    - apply mbind_ok in Hcv as (sd & [o2 out2] & Hcv & Hset).
      apply cv_rescale_config in Hcv; [|reflexivity].
      inversion Hset; subst. unfold same_config in Hcv. simpl in *.
      intuition.
    - inversion Hcv; subst. simpl. auto. }
  cbv [mbind SkLearnGP.self SkLearnGP.print modify] in Hb. simpl in Hb.
  rewrite get_interp_run in Hb by exact Htest.
  rewrite Hps, Hlim, Hco in Hb.
  destruct (interp_of limits use_coreg ps powers) as [[[sf pz] g]|];
    [|discriminate].
  inversion Hb as [[Ho Hout]]. exists sf, pz, g. repeat split.
  intros qs out2. rewrite (predict_run qs _ out2 sf g) by reflexivity.
  simpl. reflexivity.
Qed.

End Emulator.

Lemma C2_init_trains_on_full_set_witness :
  exists o out',
    SkLearnGP.init (LA := StandIn.lib true) StandIn.params2 StandIn.powers2
      StandIn.limits2 false true [] = Ok (o, out') /\
    exists sf pz g,
      interp_of StandIn.limits2 false StandIn.params2 StandIn.powers2
        = Ok (sf, pz, g) /\
      SkLearnGP.gp o = Some g /\
      SkLearnGP.scalefactors o = Some sf /\
      SkLearnGP.paramzero o = Some pz.
Proof.
  assert (exists o out',
    SkLearnGP.init (LA := StandIn.lib true) StandIn.params2 StandIn.powers2
      StandIn.limits2 false true [] = Ok (o, out')) as (o & out' & Hinit).
  { eexists _, _. vm_compute. reflexivity. }
  exists o, out'. split; [exact Hinit|].
  destruct (C2_init_trains_on_full_set _ _ _ _ _ _ _ _ Hinit)
    as (sf & pz & g & Hfit & Hg & Hsf & Hpz & _).
  exists sf, pz, g. auto.
Defined.

(** ** binary64 *)

Lemma regular_finite (x : float) :
  F64.regular x = true -> exists s m e, Prim2SF x = S754_finite s m e.
Proof.
  unfold F64.regular. rewrite classify_spec.
  destruct (Prim2SF x) as [[]|[]| |s m e]; simpl; try discriminate.
  eauto.
Qed.

Lemma div_core_self (m : positive) (e : Z) :
  SFdiv_core_binary prec emax (Z.pos m) e (Z.pos m) e =
  (2 ^ 53, -53, loc_Exact)%Z.
Proof.
  unfold SFdiv_core_binary.
  replace (Zdigits2 (Z.pos m) + e - (Zdigits2 (Z.pos m) + e))%Z with 0%Z by lia.
  replace (e - e)%Z with 0%Z by lia.
  change (Z.min (fexp prec emax 0) 0) with (-53)%Z.
  change (0 - -53)%Z with 53%Z.
  cbv beta iota zeta.
  rewrite Z.shiftl_mul_pow2 by lia.
  rewrite Z.mul_comm.
  pose proof (Z.div_mul (2 ^ 53) (Z.pos m)) as Hq.
  pose proof (Z.mod_mul (2 ^ 53) (Z.pos m)) as Hr.
  unfold Z.div, Z.modulo in Hq, Hr.
  destruct (Z.div_eucl (2 ^ 53 * Z.pos m) (Z.pos m)) as [q r].
  rewrite Hq, Hr by discriminate.
  unfold new_location, new_location_even, new_location_odd.
  destruct (Z.even (Z.pos m)); reflexivity.
Qed.

(** A finite number that is not zero, divided by itself, is one: the
    quotient is exact, so nothing is rounded. *)
Lemma div_self (x : float) :
  F64.regular x = true -> PrimFloat.div x x = 1%float.
Proof.
  intros Hx. destruct (regular_finite x Hx) as (s & m & e & Hf).
  apply Prim2SF_inj. rewrite div_spec, Hf.
  unfold SF64div, SFdiv. rewrite div_core_self.
  destruct s; reflexivity.
Qed.

Lemma normalise_self (x : float) :
  F64.regular x = true -> s_sub (s_div x x) (s_of_Q 1) = 0%float.
Proof. intros Hx. simpl. rewrite div_self by exact Hx. reflexivity. Qed.

Lemma float_nan_ne_zero : PrimFloat.nan <> 0%float.
Proof.
  intros Heq. apply (f_equal PrimFloat.classify) in Heq.
  vm_compute in Heq. discriminate.
Qed.

(** ** The median spectrum *)

Section Median.
Context {LA : Lib float}.



End Median.



(** ** Normalisation and its inverse *)






(** ** The fit of the temperature-density relation *)

Section TempDensFacts.
Context {A : Type} {SA : Scalar A} {LA : Lib A}.

Lemma min_func_residuals (pts : list (A * A)) :
  TempDens.min_func (map fst pts) (map snd pts) = power_law_residuals pts.
Proof.
  apply functional_extensionality. intros param.
  unfold TempDens.min_func, power_law_residuals.
  destruct param as [|logT0 [|gammam1 rest]]; simpl; try reflexivity.
  rewrite bcast1_same by (rewrite !length_map; reflexivity).
  f_equal. induction pts as [|p pts IH]; simpl; [reflexivity|].
  rewrite IH. reflexivity.
Qed.

Lemma select_where (f g : A -> bool) (lo lt pre_o pre_t : list A) :
  length lo = length lt ->
  length pre_o = length pre_t ->
  let mask := zip_with andb (map f lo) (map g lt) in
  let ind :=
    map snd (filter (fun p => fst p = true)
               (zip mask (seq (length pre_o) (length mask)))) in
  let sel := filter (fun p => f (fst p) && g (snd p) = true) (zip lo lt) in
  Np.take_idx (pre_o ++ lo) ind = Ok (map fst sel) /\
  Np.take_idx (pre_t ++ lt) ind = Ok (map snd sel).
Proof.
  revert lt pre_o pre_t.
  induction lo as [|x lo IH]; intros [|t lt] pre_o pre_t Hlen Hpre;
    simpl in Hlen; try discriminate; [split; reflexivity|].
  injection Hlen as Hlen. cbn zeta.
  specialize (IH lt (pre_o ++ [x]) (pre_t ++ [t]) Hlen).
  rewrite !length_app in IH. simpl in IH.
  specialize (IH ltac:(lia)). cbn zeta in IH.
  rewrite <- !app_assoc in IH. simpl in IH.
  replace (length pre_o + 1) with (S (length pre_o)) in IH by lia.
  destruct IH as [IHo IHt].
  cbn [map zip_with length seq zip].
  rewrite !filter_cons. cbn [fst snd].
  destruct (f x && g t) eqn:Hb.
  - rewrite !decide_True by reflexivity. cbn [map]. unfold Np.take_idx in *.
    cbn [res_mapM].
    cbn [fst snd].
    rewrite list_lookup_middle by reflexivity.
    rewrite (list_lookup_middle pre_t lt t (length pre_o)) by congruence.
    cbn. rewrite IHo, IHt. split; reflexivity.
  - rewrite !decide_False by discriminate. split; assumption.
Qed.

(** What [fit_temp_dens_relation] does on two arrays of the same length. *)
Lemma fit_run (logoverden logT : list A) (out : list (event A)) :
  length logoverden = length logT ->
  TempDens.fit_temp_dens_relation logoverden logT out =
  match leastsq (power_law_residuals (selected_points logoverden logT))
          [np_log10 (s_of_Q 1e4); s_of_Q 0.5] with
  | Raise e => Raise e
  | Ok r =>
      match lsq_x r !! 0, lsq_x r !! 1 with
      | Some p0, Some p1 =>
          Ok ((np_power (s_of_nat 10) p0, s_add p1 (s_of_nat 1)),
              out ++ (if (lsq_ier r <=? 0)%Z
                      then [PrintMessage (lsq_mesg r)] else []))
      | _, _ => Raise IndexError
      end
  end.
Proof.
  intros Hlen. unfold TempDens.fit_temp_dens_relation.
  rewrite bcast1_same by (rewrite !length_map; exact Hlen).
  rewrite mbind_lift_ok.
  destruct (select_where (fun x => s_ltb x (s_of_Q 1.0))
              (fun x => s_ltb x (s_of_Q 5.0))
              logoverden logT [] [] Hlen eq_refl) as [Ho Ht].
  simpl in Ho, Ht. unfold Np.where_.
  rewrite Ho, mbind_lift_ok, Ht, mbind_lift_ok.
  rewrite min_func_residuals. fold (selected_points logoverden logT).
  unfold mbind at 1. unfold lift at 1.
  destruct (leastsq _ _) as [r|e]; [|reflexivity].
  cbv [mbind lift modify mret].
  destruct (lsq_ier r <=? 0)%Z; simpl;
    destruct (lsq_x r !! 0) as [p0|]; simpl; try reflexivity;
    destruct (lsq_x r !! 1) as [p1|]; simpl; try reflexivity.
  rewrite app_nil_r. reflexivity.
Qed.

End TempDensFacts.

Section TempDensClaims.
Context {A : Type} {SA : Scalar A} {LA : Lib A}.

(** C8. [fit_temp_dens_relation] keeps the points with [logoverden < 1.0]
    and [logT < 5.0], hands [leastsq] the residuals
    [logT - (logT0 + gammam1*logoverden)] on them with the starting point
    [(log10(1e4), 0.5)], and returns [(10**logT0, gammam1 + 1)] for the
    parameters [leastsq] answers. *)
Theorem C8_fit_power_law (logoverden logT : list A) (out : list (event A))
    (r : LeastsqResult A) (logT0 gammam1 : A) :
  length logoverden = length logT ->
  leastsq (power_law_residuals (selected_points logoverden logT))
    [np_log10 (s_of_Q 1e4); s_of_Q 0.5] = Ok r ->
  lsq_x r !! 0 = Some logT0 ->
  lsq_x r !! 1 = Some gammam1 ->
  (forall x t,
     (x, t) ∈ selected_points logoverden logT <->
     (x, t) ∈ zip logoverden logT /\
     s_ltb x (s_of_Q 1.0) = true /\ s_ltb t (s_of_Q 5.0) = true) /\
  (forall a b rest,
     power_law_residuals (selected_points logoverden logT) (a :: b :: rest) =
     Ok (map (fun p => s_sub (snd p) (s_add a (s_mul b (fst p))))
           (selected_points logoverden logT))) /\
  exists out',
    TempDens.fit_temp_dens_relation logoverden logT out =
    Ok ((np_power (s_of_nat 10) logT0, s_add gammam1 (s_of_nat 1)), out').
Proof.
  intros Hlen Hfit H0 H1. split; [|split].
  - intros x t. unfold selected_points. rewrite list_elem_of_filter. simpl.
    rewrite andb_true_iff. tauto.
  - reflexivity.
  - rewrite fit_run by exact Hlen. rewrite Hfit, H0, H1. eauto.
Qed.

End TempDensClaims.

Lemma C8_fit_power_law_witness :
  let L := StandIn.lib true in
  let logoverden := [0.5; 2; -1]%float in
  let logT := [4; 4.5; 6]%float in
  length logoverden = length logT /\
  exists r,
    leastsq (Lib := L)
      (power_law_residuals (selected_points logoverden logT))
      [np_log10 (Lib := L) (s_of_Q 1e4); s_of_Q 0.5] = Ok r /\
    lsq_x r !! 0 = Some 4%float /\
    lsq_x r !! 1 = Some 0.5%float /\
    exists out',
      TempDens.fit_temp_dens_relation (LA := L) logoverden logT [] =
      Ok ((np_power (Lib := L) (s_of_nat 10) 4%float,
           s_add 0.5%float (s_of_nat 1)), out').
Proof.
  intros L logoverden logT. split; [reflexivity|].
  eexists. split; [vm_compute; reflexivity|].
  split; [reflexivity|]. split; [reflexivity|].
  eapply (C8_fit_power_law (LA := L) logoverden logT []).
  - reflexivity.
  - vm_compute. reflexivity.
  - reflexivity.
  - reflexivity.
Defined.

(** ** The rescaling of the errors *)

Section Rescale.
Context {A : Type} {SA : Scalar A} {LA : Lib A}.





End Rescale.

Section Init.
Context {A : Type} {SA : Scalar A} {LA : Lib A}.

(** The object [__init__] returns, and what it has printed. *)
Lemma init_inv (ps powers limits : ndarray2 A) (use_coreg cv : bool)
    (out out' : list (event A)) (o : SkLearnGP.obj) :
  SkLearnGP.init ps powers limits use_coreg cv out = Ok (o, out') ->
  exists sd o1 out1 sf pz g,
    (if cv
     then SkLearnGP.cv_rescale ps powers (new_obj ps limits use_coreg, out)
          = Ok (sd, (o1, out1))
     else sd = s_of_nat 1 /\ out1 = out) /\
    interp_of limits use_coreg ps powers = Ok (sf, pz, g) /\
    o = SkLearnGP.Obj ps limits (s_of_Q 3e-5) false use_coreg sd
          (Some sf) (Some pz) (Some g) /\
    out' = out1 ++ [PrintRescaling sd].
Proof.
  unfold SkLearnGP.init. fold (new_obj ps limits use_coreg). intros Hi.
  match type of Hi with
  | match ?b _ with _ => _ end = _ =>
      destruct (b (new_obj ps limits use_coreg, out))
        as [[[] [o' out'']]|] eqn:Hb
  end; [|discriminate].
  inversion Hi; subst o' out''. clear Hi.
  apply mbind_ok in Hb as ([] & [o1 out1] & Hcv & Hb).
  assert (exists sd o2,
    (if cv
     then SkLearnGP.cv_rescale ps powers (new_obj ps limits use_coreg, out)
          = Ok (sd, (o2, out1))
     else sd = s_of_nat 1 /\ out1 = out) /\
    o1 = SkLearnGP.set_sdscale sd o1 /\
    same_config (new_obj ps limits use_coreg) o2 /\
    same_config o2 (SkLearnGP.set_sdscale (SkLearnGP.sdscale o2) o1))
    as (sd & o2 & Hsd & Ho1 & Hcfg & Hcfg').
  { destruct cv.
    - apply mbind_ok in Hcv as (sd & [o2 out2] & Hcv & Hset).
      inversion Hset; subst. exists sd, o2. split; [exact Hcv|].
      split; [reflexivity|]. split.
      + eapply cv_rescale_config; [reflexivity | exact Hcv].
      + repeat split.
    - inversion Hcv; subst. exists (s_of_nat 1), (new_obj ps limits use_coreg).
      repeat split. }
  cbv [mbind SkLearnGP.self SkLearnGP.print modify] in Hb. simpl in Hb.
  destruct Hcfg as (Hps & Hlim & Hintol & Htest & Hco & _).
  destruct Hcfg' as (Hps' & Hlim' & Hintol' & Htest' & Hco' & _).
  simpl in *.
  rewrite get_interp_run in Hb by congruence.
  replace (SkLearnGP.param_limits o1) with limits in Hb by congruence.
  replace (SkLearnGP.coreg o1) with use_coreg in Hb by congruence.
  replace (SkLearnGP.params o1) with ps in Hb by congruence.
  destruct (interp_of limits use_coreg ps powers) as [[[sf pz] g]|];
    [|discriminate].
  inversion Hb as [[Ho Hout]].
  exists sd, o2, out1, sf, pz, g. split; [exact Hsd|]. split; [reflexivity|].
  rewrite Ho1. simpl. split; [|reflexivity].
  f_equal; congruence.
Qed.

End Init.

Section RescaleClaims.
Context {A : Type} {SA : Scalar A} {LA : Lib A}.



End RescaleClaims.



(** * Further properties of the code *)

(** ** [MultiBinGP.__init__] *)

Lemma mmapM_inv {S X Y} (f : X -> M S Y) (l : list X) (s s' : S) (ys : list Y) :
  mmapM f l s = Ok (ys, s') ->
  length ys = length l /\
  forall i x, l !! i = Some x ->
    exists y s1 s2, ys !! i = Some y /\ f x s1 = Ok (y, s2).
Proof.
  revert s ys. induction l as [|a l IH]; intros s ys Hm; simpl in Hm.
  - inversion Hm; subst. split; [reflexivity|]. intros i x Hx. discriminate.
  - apply mbind_ok in Hm as (b & s1 & Hb & Hm).
    apply mbind_ok in Hm as (bs & s2 & Hbs & Hm).
    inversion Hm; subst. destruct (IH _ _ Hbs) as [Hlen Hall].
    split; [simpl; congruence|].
    intros [|i] x Hx; simpl in Hx.
    + inversion Hx; subst. exists b, s, s1. auto.
    + apply Hall. exact Hx.
Qed.

Lemma slice_lookup {B} (lo hi j : nat) (l : list B) :
  j < hi - lo -> Np.slice lo hi l !! j = l !! (lo + j).
Proof.
  intros Hj. unfold Np.slice. rewrite lookup_take_lt by exact Hj.
  apply lookup_drop.
Qed.

Section MultiBinInit.
Context {A : Type} {SA : Scalar A} {LA : Lib A}.

(** Without wavenumber bins the construction divides by zero; with a number
    of columns that is not a multiple of the number of bins its assertion
    fails.  In both cases no emulator is built and nothing is printed. *)
Theorem multibin_init_rejects (ps powers limits : ndarray2 A) (kf : list A)
    (use_coreg : bool) (out : list (event A)) :
  (kf = [] ->
   MultiBinGP.init ps kf powers limits use_coreg out = Raise ZeroDivisionError) /\
  (kf <> [] -> Np.shape1 powers mod length kf <> 0 ->
   MultiBinGP.init ps kf powers limits use_coreg out = Raise AssertionError).
Proof.
  split.
  - intros ->. reflexivity.
  - intros Hkf Hmod. unfold MultiBinGP.init.
    destruct (Nat.eqb_spec (length kf) 0) as [H0|_].
    + destruct kf; [congruence | discriminate].
    + destruct (Nat.eqb_spec (Np.shape1 powers mod length kf) 0);
        [contradiction | reflexivity].
Qed.

(** When the construction returns, the columns of [powers] are [nz] blocks
    of [nk] columns, there is one emulator for each block, and the [i]-th is
    the one [SkLearnGP] builds, with its cross-validation, on the columns
    [i*nk .. (i+1)*nk - 1] of every row. *)
Theorem multibin_init_blocks (ps powers limits : ndarray2 A) (kf : list A)
    (use_coreg : bool) (out out' : list (event A)) (o : MultiBinGP.obj) :
  MultiBinGP.init ps kf powers limits use_coreg out = Ok (o, out') ->
  MultiBinGP.kf o = kf /\
  MultiBinGP.nk o = length kf /\
  0 < MultiBinGP.nk o /\
  Np.shape1 powers = MultiBinGP.nz o * MultiBinGP.nk o /\
  length (MultiBinGP.gps o) = MultiBinGP.nz o /\
  MultiBinGP.coreg o = use_coreg /\
  forall i, i < MultiBinGP.nz o ->
    let block := Np.col_slice powers (i * MultiBinGP.nk o)
                   ((i + 1) * MultiBinGP.nk o) in
    Np.shape0 block = Np.shape0 powers /\
    Np.shape1 block = MultiBinGP.nk o /\
    (forall k r j, nd_rows powers !! k = Some r -> j < MultiBinGP.nk o ->
       exists r', nd_rows block !! k = Some r' /\
                  r' !! j = r !! (i * MultiBinGP.nk o + j)) /\
    exists g out1 out2,
      MultiBinGP.gps o !! i = Some g /\
      SkLearnGP.init ps block limits use_coreg true out1 = Ok (g, out2).
Proof.
  unfold MultiBinGP.init. intros Hi.
  destruct (Nat.eqb_spec (length kf) 0) as [|Hnk]; [discriminate|].
  destruct (Nat.eqb_spec (Np.shape1 powers mod length kf) 0) as [Hmod|];
    [|discriminate].
  simpl in Hi. apply mbind_ok in Hi as (gs & s1 & Hgs & Hi).
  inversion Hi; subst. clear Hi. simpl.
  apply mmapM_inv in Hgs as [Hlen Hall]. rewrite length_seq in Hlen.
  assert (Np.shape1 powers = Np.shape1 powers / length kf * length kf) as Hcols.
  { rewrite (Nat.div_mod (Np.shape1 powers) (length kf)) at 1 by exact Hnk.
    rewrite Hmod. lia. }
  repeat (split; [first [reflexivity | assumption | lia]|]).
  intros i Hi. split; [|split; [|split]].
  - unfold Np.shape0, Np.col_slice. simpl. apply length_map.
  - unfold Np.shape1, Np.col_slice in *. simpl.
    assert ((i + 1) * length kf <= nd_ncols powers) by nia.
    assert (i * length kf <= nd_ncols powers) by nia. lia.
  - intros k r j Hr Hj. unfold Np.col_slice. simpl.
    change (map ?f ?l) with (f <$> l). rewrite list_lookup_fmap, Hr. simpl.
    eexists. split; [reflexivity|]. apply slice_lookup. lia.
  - destruct (Hall i i) as (g & out1 & out2 & Hg & Hinit).
    { apply lookup_seq. lia. }
    exists g, out1, out2. auto.
Qed.

End MultiBinInit.

Lemma multibin_init_rejects_witness :
  @nil float = [] /\
  [1%float; 2%float; 3%float] <> [] /\
  Np.shape1 StandIn.powers2 mod length [1%float; 2%float; 3%float] <> 0 /\
  MultiBinGP.init (LA := StandIn.lib true) StandIn.params2 []
    StandIn.powers2 StandIn.limits2 false [] = Raise ZeroDivisionError /\
  MultiBinGP.init (LA := StandIn.lib true) StandIn.params2
    [1%float; 2%float; 3%float] StandIn.powers2 StandIn.limits2 false []
    = Raise AssertionError.
Proof.
  assert ([1%float; 2%float; 3%float] <> []) as Hkf by discriminate.
  assert (Np.shape1 StandIn.powers2 mod length [1%float; 2%float; 3%float] <> 0)
    as Hmod by (simpl; discriminate).
  split; [reflexivity|]. split; [exact Hkf|]. split; [exact Hmod|]. split.
  - exact (proj1 (multibin_init_rejects (LA := StandIn.lib true)
                    StandIn.params2 StandIn.powers2 StandIn.limits2 []
                    false []) eq_refl).
  - exact (proj2 (multibin_init_rejects (LA := StandIn.lib true)
                    StandIn.params2 StandIn.powers2 StandIn.limits2
                    [1%float; 2%float; 3%float] false []) Hkf Hmod).
Defined.

Lemma multibin_init_blocks_witness :
  exists o out',
    MultiBinGP.init (LA := StandIn.lib true) StandIn.params2 [1%float]
      StandIn.powers2 StandIn.limits2 false [] = Ok (o, out') /\
    MultiBinGP.nk o = 1 /\
    Np.shape1 StandIn.powers2 = MultiBinGP.nz o * MultiBinGP.nk o /\
    length (MultiBinGP.gps o) = MultiBinGP.nz o.
Proof.
  assert (exists o out',
    MultiBinGP.init (LA := StandIn.lib true) StandIn.params2 [1%float]
      StandIn.powers2 StandIn.limits2 false [] = Ok (o, out'))
    as (o & out' & Hinit).
  { eexists _, _. vm_compute. reflexivity. }
  exists o, out'. split; [exact Hinit|].
  destruct (multibin_init_blocks _ _ _ _ _ _ _ _ Hinit)
    as (_ & Hnk & _ & Hcols & Hlen & _).
  auto.
Defined.

(** ** [MultiBinGP.predict] and the array of the caller *)

Section MultiBinPredict.
Context {A : Type} {SA : Scalar A} {LA : Lib A}.

Ltac noalias := unfold MultiBinGP.heap, MultiBinGP.loc in *.

Lemma keeps_refl (h : MultiBinGP.heap (A := A)) : keeps h h.
Proof. intros l m Hl. exact Hl. Qed.

Lemma keeps_trans (h1 h2 h3 : MultiBinGP.heap (A := A)) :
  keeps h1 h2 -> keeps h2 h3 -> keeps h1 h3.
Proof. unfold keeps. auto. Qed.

Lemma fresh_loc_free (h : MultiBinGP.heap (A := A)) :
  h !! fresh (dom h) = None.
Proof. unfold MultiBinGP.heap in *. apply not_elem_of_dom_1, is_fresh. Qed.

Lemma keeps_insert_fresh (h : MultiBinGP.heap (A := A)) m :
  keeps h (<[fresh (dom h) := m]> h).
Proof.
  unfold keeps, MultiBinGP.heap in *. intros l m' Hl.
  rewrite lookup_insert_ne; [exact Hl|].
  intros <-. rewrite fresh_loc_free in Hl. discriminate.
Qed.

Lemma np_array_copy_run (h : gmap nat (ndarray2 A)) (ps : nat) p :
  h !! ps = Some p ->
  MultiBinGP.np_array_copy ps h
  = Ok (fresh (dom h), <[fresh (dom h) := p]> h).
Proof.
  intros Hps. unfold MultiBinGP.np_array_copy, MultiBinGP.load, MultiBinGP.alloc.
  cbv [mbind]. unfold MultiBinGP.heap, MultiBinGP.loc in *. rewrite Hps.
  reflexivity.
Qed.

Lemma imul00_run (h : gmap nat (ndarray2 A)) (l : nat) m t :
  h !! l = Some m ->
  MultiBinGP.imul00 l t h =
  match scale00 m t with
  | Ok m' => Ok (tt, <[l := m']> h)
  | Raise e => Raise e
  end.
Proof.
  intros Hl. unfold MultiBinGP.imul00, scale00.
  unfold MultiBinGP.heap, MultiBinGP.loc in *. rewrite Hl.
  destruct (nd_rows m) as [|[|x r] rs]; reflexivity.
Qed.

Lemma gp_predict_at_run (h : gmap nat (ndarray2 A)) (l : nat) z g :
  h !! l = Some z ->
  MultiBinGP.gp_predict_at g l h =
  match run_predict g z with
  | Ok r => Ok (r, h)
  | Raise e => Raise e
  end.
Proof.
  intros Hl. unfold MultiBinGP.gp_predict_at, MultiBinGP.load, run_predict.
  cbv [mbind lift]. unfold MultiBinGP.heap, MultiBinGP.loc in *. rewrite Hl.
  destruct (SkLearnGP.predict z (g, [])) as [[r w]|]; reflexivity.
Qed.

Lemma mbind_mbind_lift_ok {S X Y Z} (x : X) (k1 : X -> M S Y)
    (k2 : Y -> M S Z) (s : S) :
  mbind (mbind (lift (Ok x)) k1) k2 s = mbind (k1 x) k2 s.
Proof. reflexivity. Qed.

(** After the copy, the rest of the loop body on the copy [z] at [l0]. *)
Lemma predict_bin_rest (nk_ i : nat) (g : SkLearnGP.obj)
    (means std : ndarray2 A) (h : gmap nat (ndarray2 A)) (l0 : nat) z :
  h !! l0 = Some z ->
  (let! (m, s) := MultiBinGP.gp_predict_at g l0 in
   let! row0 := lift (Np.row means 0) in
   let! row0' := lift (Np.assign_row_slice (i * nk_) ((i + 1) * nk_) m row0) in
   let means0 := Nd2 (<[0:=row0']> (nd_rows means)) (nd_ncols means) in
   let! std0 := lift (Np.assign_col_slice (i * nk_) ((i + 1) * nk_) s std) in
   mret (means0, std0)) h =
  match (let? (m, s) := run_predict g z in write_bin nk_ i m s (means, std)) with
  | Ok acc' => Ok (acc', h)
  | Raise e => Raise e
  end.
Proof.
  intros Hl. unfold mbind at 1. noalias.
  rewrite (gp_predict_at_run h l0 z g Hl).
  destruct (run_predict g z) as [[m s]|]; simpl; [|reflexivity].
  unfold write_bin. cbv [mbind lift mret].
  destruct (Np.row means 0) as [row0|]; simpl; [|reflexivity].
  destruct (Np.assign_row_slice _ _ m row0) as [row0'|]; simpl;
    [|reflexivity].
  destruct (Np.assign_col_slice _ _ s std) as [std0|]; simpl; reflexivity.
Qed.

Lemma predict_bin_heap (nk_ : nat) (ps : MultiBinGP.loc) (p : ndarray2 A)
    (tau : option (list A)) (i : nat) (g : SkLearnGP.obj)
    (acc : ndarray2 A * ndarray2 A) (h : MultiBinGP.heap) :
  h !! ps = Some p ->
  match MultiBinGP.predict_bin nk_ ps tau i g acc h with
  | Ok (acc', h') => predict_bin_pure nk_ p tau i g acc = Ok acc' /\ keeps h h'
  | Raise e => predict_bin_pure nk_ p tau i g acc = Raise e
  end.
Proof.
  intros Hps. unfold MultiBinGP.predict_bin, predict_bin_pure.
  destruct acc as [means std]. noalias.
  rewrite (mbind_step _ _ _ _ _ (np_array_copy_run h ps p Hps)).
  set (l0 := fresh (dom h)).
  assert (keeps (A := A) h (<[l0 := p]> h)) as Hk0
    by apply keeps_insert_fresh.
  assert ((<[l0 := p]> h) !! l0 = Some p) as Hl0 by apply lookup_insert_eq.
  destruct tau as [taus|]; simpl.
  - destruct (taus !! i) as [t|]; simpl; [|reflexivity].
    rewrite mbind_mbind_lift_ok. unfold mbind at 1.
    pose proof (imul00_run _ l0 p t Hl0) as E. noalias. rewrite E. clear E.
    destruct (scale00 p t) as [z|]; simpl; [|reflexivity].
    pose proof (predict_bin_rest nk_ i g means std (<[l0 := z]> h) l0 z
                  (lookup_insert_eq _ _ _)) as E.
    noalias. rewrite insert_insert_eq. rewrite E. clear E.
    destruct (let? (m, s) := run_predict g z in _) as [acc'|]; [|reflexivity].
    split; [reflexivity|]. apply keeps_insert_fresh.
  - unfold mbind at 1. unfold mret at 1.
    pose proof (predict_bin_rest nk_ i g means std _ l0 p Hl0) as E.
    noalias. rewrite E. clear E.
    destruct (let? (m, s) := run_predict g p in _) as [acc'|]; [|reflexivity].
    split; [reflexivity | exact Hk0].
Qed.

Lemma predict_loop_heap (nk_ : nat) (ps : nat) (p : ndarray2 A)
    (tau : option (list A)) (gs : list SkLearnGP.obj) :
  forall (i : nat) (acc : ndarray2 A * ndarray2 A) (h : gmap nat (ndarray2 A)),
  h !! ps = Some p ->
  match MultiBinGP.predict_loop nk_ ps tau i gs acc h with
  | Ok (r, h') => predict_loop_pure nk_ p tau i gs acc = Ok r /\ keeps h h'
  | Raise e => predict_loop_pure nk_ p tau i gs acc = Raise e
  end.
Proof.
  induction gs as [|g gs IH]; intros i acc h Hps; simpl.
  - split; [reflexivity | apply keeps_refl].
  - pose proof (predict_bin_heap nk_ ps p tau i g acc h Hps) as Hbin.
    unfold mbind at 1.
    destruct (MultiBinGP.predict_bin nk_ ps tau i g acc h)
      as [[acc' h1]|e].
    + destruct Hbin as [-> Hk]. simpl.
      specialize (IH (S i) acc' h1 (Hk _ _ Hps)).
      destruct (MultiBinGP.predict_loop nk_ ps tau (S i) gs acc' h1)
        as [[r h2]|e].
      * destruct IH as [-> Hk']. split; [reflexivity|].
        eapply keeps_trans; eassumption.
      * exact IH.
    + rewrite Hbin. reflexivity.
Qed.

Lemma predict_heap_pure (o : MultiBinGP.obj) (ps : nat)
    (p : ndarray2 A) (tau : option (list A)) (h : gmap nat (ndarray2 A)) :
  h !! ps = Some p ->
  match MultiBinGP.predict o ps tau h with
  | Ok (r, h') => predict_pure o p tau = Ok r /\ keeps h h'
  | Raise e => predict_pure o p tau = Raise e
  end.
Proof.
  intros Hps. unfold MultiBinGP.predict, predict_pure.
  unfold mbind at 1. unfold MultiBinGP.load at 1. noalias. rewrite Hps.
  apply predict_loop_heap. exact Hps.
Qed.

(** [MultiBinGP.predict] does not change the array of the caller, nor any
    other array of the store: every bin works on a copy of its own.  So each
    factor of [tau0_factors] multiplies the entry [[0][0]] the caller gave,
    not the product of the factors of the bins before: the answer is the one
    computed from the contents [p] of the array, bin by bin, and an
    exception is the one that computation raises. *)
Theorem multibin_predict_frame (o : MultiBinGP.obj) (ps : nat)
    (p : ndarray2 A) (tau : option (list A)) (h : gmap nat (ndarray2 A)) :
  h !! ps = Some p ->
  match MultiBinGP.predict o ps tau h with
  | Ok (r, h') =>
      predict_pure o p tau = Ok r /\ h' !! ps = Some p /\ keeps h h'
  | Raise e => predict_pure o p tau = Raise e
  end.
Proof.
  intros Hps. pose proof (predict_heap_pure o ps p tau h Hps) as Hrun.
  destruct (MultiBinGP.predict o ps tau h) as [[r h']|e]; [|exact Hrun].
  destruct Hrun as [Hpure Hk]. split; [exact Hpure|].
  split; [apply Hk, Hps | exact Hk].
Qed.

End MultiBinPredict.

Lemma multibin_predict_frame_witness :
  StandIn.heap1 !! 0 = Some StandIn.query /\
  exists r h',
    MultiBinGP.predict StandIn.multibin2 0 (Some [2; 3]%float) StandIn.heap1
      = Ok (r, h') /\
    predict_pure StandIn.multibin2 StandIn.query (Some [2; 3]%float) = Ok r /\
    h' !! 0 = Some StandIn.query.
Proof.
  assert (StandIn.heap1 !! 0 = Some StandIn.query) as Hps by reflexivity.
  split; [exact Hps|].
  pose proof (multibin_predict_frame StandIn.multibin2 0 StandIn.query
                (Some [2; 3]%float) StandIn.heap1 Hps) as Hframe.
  destruct (MultiBinGP.predict StandIn.multibin2 0 (Some [2; 3]%float)
              StandIn.heap1) as [[r h']|e] eqn:Hrun.
  - exists r, h'. destruct Hframe as (Hpure & Hkeep & _). auto.
  - exfalso. vm_compute in Hrun. discriminate.
Defined.


(** ** The layout of the prediction of [MultiBinGP] *)

Lemma stretch_length {B} (n : nat) (v v' : list B) :
  Np.stretch n v = Ok v' -> length v' = n.
Proof.
  unfold Np.stretch. destruct (Nat.eqb_spec (length v) n) as [Hn|_].
  - intros Hv. inversion Hv; subst. reflexivity.
  - destruct v as [|x [|y v]]; intros Hv; inversion Hv.
    apply length_replicate.
Qed.

Lemma concat_length_const {B} (n : nat) (vs : list (list B)) :
  Forall (fun v => length v = n) vs -> length (concat vs) = length vs * n.
Proof.
  induction 1 as [|v vs Hv _ IH]; simpl; [reflexivity|].
  rewrite length_app, IH, Hv. reflexivity.
Qed.

Section MultiBinLayout.
Context {A : Type} {SA : Scalar A} {LA : Lib A}.

Lemma write_bin_means (nk_ i c : nat) (m s std std' means' : ndarray2 A)
    (pre old post : list A) :
  length pre = i * nk_ ->
  length old = nk_ ->
  write_bin nk_ i m s (Nd2 [pre ++ old ++ post] c, std) = Ok (means', std') ->
  exists v0 v,
    nd_rows m = [v0] /\ Np.stretch nk_ v0 = Ok v /\
    means' = Nd2 [pre ++ v ++ post] c.
Proof.
  intros Hpre Hold Hw. unfold write_bin in Hw. simpl in Hw.
  unfold Np.assign_row_slice in Hw.
  destruct (nd_rows m) as [|v0 [|v1 rest]]; simpl in Hw; try discriminate.
  assert (Np.slice (i * nk_) ((i + 1) * nk_) (pre ++ old ++ post) = old)
    as Hslice.
  { unfold Np.slice. rewrite <- Hpre, drop_app_length.
    replace ((i + 1) * nk_ - length pre) with (length old) by lia.
    apply take_app_length. }
  rewrite Hslice, Hold in Hw.
  destruct (Np.stretch nk_ v0) as [v|] eqn:Hv; simpl in Hw; [|discriminate].
  destruct (Np.assign_col_slice _ _ s std) as [std0|]; simpl in Hw;
    [|discriminate].
  inversion Hw; subst. exists v0, v. split; [reflexivity|].
  split; [exact Hv|]. f_equal. f_equal.
  unfold Np.set_slice. rewrite <- Hpre, take_app_length. f_equal. f_equal.
  replace ((i + 1) * length old) with (length (pre ++ old))
    by (rewrite length_app; lia).
  rewrite app_assoc. apply drop_app_length.
Qed.

Lemma predict_loop_layout (nk_ : nat) (p : ndarray2 A)
    (tau : option (list A)) (gs : list SkLearnGP.obj) :
  forall (i c : nat) (done : list (list A)) (std means' std' : ndarray2 A),
  length done = i ->
  Forall (fun v => length v = nk_) done ->
  predict_loop_pure nk_ p tau i gs
    (Nd2 [concat done ++ replicate (length gs * nk_) (s_of_nat 0)] c, std)
    = Ok (means', std') ->
  exists vs,
    means' = Nd2 [concat (done ++ vs)] c /\
    length vs = length gs /\
    Forall (fun v => length v = nk_) vs /\
    forall j g, gs !! j = Some g ->
      exists z m s v0 v,
        bin_input p tau (i + j) = Ok z /\
        run_predict g z = Ok (m, s) /\
        nd_rows m = [v0] /\
        Np.stretch nk_ v0 = Ok v /\
        vs !! j = Some v.
Proof.
  induction gs as [|g gs IH]; intros i c done std means' std' Hi Hdone Hrun.
  - inversion Hrun; subst. exists []. rewrite !app_nil_r.
    repeat split; [constructor|]. intros j g Hg. discriminate.
  - cbn [predict_loop_pure length] in Hrun.
    apply res_bind_ok in Hrun as ([means1 std1] & Hbin & Hrun).
    unfold predict_bin_pure in Hbin.
    apply res_bind_ok in Hbin as (z & Hz & Hbin).
    apply res_bind_ok in Hbin as ([m s] & Hp & Hw).
    replace (replicate (S (length gs) * nk_) (s_of_nat 0))
      with (replicate nk_ (s_of_nat 0 : A)
            ++ replicate (length gs * nk_) (s_of_nat 0))
      in Hw by (symmetry; apply replicate_add).
    apply write_bin_means in Hw as (v0 & v & Hm & Hv & ->).
    + assert (length v = nk_) as Hlv by (eapply stretch_length; exact Hv).
      replace (concat done ++ v ++ replicate (length gs * nk_) (s_of_nat 0))
        with (concat (done ++ [v])
              ++ replicate (length gs * nk_) (s_of_nat 0 : A))
        in Hrun
        by (rewrite concat_app; simpl; rewrite app_nil_r, <- app_assoc;
            reflexivity).
      apply IH in Hrun as (vs & -> & Hlen & Hall & Hbins).
      * exists (v :: vs). rewrite <- app_assoc. simpl.
        split; [reflexivity|]. split; [congruence|].
        split; [constructor; assumption|].
        intros [|j] g' Hg'; simpl in Hg'.
        -- inversion Hg'; subst g'. rewrite Nat.add_0_r.
           exists z, m, s, v0, v. auto.
        -- destruct (Hbins j g' Hg') as (z' & m' & s' & v0' & v' & H1 & H2).
           exists z', m', s', v0', v'.
           replace (i + S j) with (S i + j) by lia. split; [exact H1|].
           exact H2.
      * rewrite length_app. simpl. lia.
      * apply Forall_app. split; [exact Hdone|]. constructor; [exact Hlv|].
        constructor.
    + rewrite (concat_length_const nk_) by exact Hdone. lia.
    + apply length_replicate.
Qed.

End MultiBinLayout.

Lemma slice_app_shift {B} (a l : list B) (lo hi : nat) :
  Np.slice (length a + lo) (length a + hi) (a ++ l) = Np.slice lo hi l.
Proof.
  unfold Np.slice. rewrite drop_app_add.
  replace (length a + hi - (length a + lo)) with (hi - lo) by lia.
  reflexivity.
Qed.

Lemma slice_concat {B} (n : nat) (vs : list (list B)) :
  Forall (fun v => length v = n) vs ->
  forall i v, vs !! i = Some v ->
    Np.slice (i * n) ((i + 1) * n) (concat vs) = v.
Proof.
  induction 1 as [|v0 vs Hv0 _ IH]; intros i v Hi; [discriminate|].
  destruct i as [|i]; simpl in Hi.
  - inversion Hi; subst v0. unfold Np.slice. simpl.
    rewrite Nat.add_0_r, Nat.sub_0_r, <- Hv0. apply take_app_length.
  - simpl concat. rewrite <- (IH i v Hi), <- Hv0.
    replace (S i * length v0) with (length v0 + i * length v0) by lia.
    replace ((S i + 1) * length v0) with (length v0 + (i + 1) * length v0)
      by lia.
    apply slice_app_shift.
Qed.

Section MultiBinLayoutClaims.
Context {A : Type} {SA : Scalar A} {LA : Lib A}.

Lemma predict_pure_layout (o : MultiBinGP.obj) (p : ndarray2 A)
    (tau : option (list A)) (means std : ndarray2 A) :
  length (MultiBinGP.gps o) = MultiBinGP.nz o ->
  predict_pure o p tau = Ok (means, std) ->
  exists vs,
    nd_rows means = [concat vs] /\
    nd_ncols means = MultiBinGP.nk o * MultiBinGP.nz o /\
    length vs = MultiBinGP.nz o /\
    Forall (fun v => length v = MultiBinGP.nk o) vs /\
    forall i g, MultiBinGP.gps o !! i = Some g ->
      exists z m s v0 v,
        bin_input p tau i = Ok z /\
        run_predict g z = Ok (m, s) /\
        nd_rows m = [v0] /\
        Np.stretch (MultiBinGP.nk o) v0 = Ok v /\
        vs !! i = Some v.
Proof.
  intros Hlen Hrun. unfold predict_pure, Np.zeros in Hrun.
  cbn [replicate] in Hrun.
  replace (MultiBinGP.nk o * MultiBinGP.nz o)
    with (length (MultiBinGP.gps o) * MultiBinGP.nk o) in Hrun at 1 by lia.
  change (replicate (length (MultiBinGP.gps o) * MultiBinGP.nk o) (s_of_nat 0))
    with (concat [] ++
          replicate (length (MultiBinGP.gps o) * MultiBinGP.nk o)
            (s_of_nat 0 : A)) in Hrun.
  apply predict_loop_layout in Hrun as (vs & -> & Hvs & Hall & Hbins);
    [|reflexivity|constructor].
  exists vs. simpl. split; [reflexivity|]. split; [reflexivity|].
  split; [congruence|]. split; [exact Hall|].
  intros i g Hg. exact (Hbins i g Hg).
Qed.

(** The mean [MultiBinGP.predict] returns has one row, the concatenation
    of the answers of the emulators in their order: the block of the columns
    [i*nk .. (i+1)*nk - 1] is the mean the [i]-th emulator predicts at its
    parameters, the block its training columns came from. *)
Theorem multibin_predict_layout (o : MultiBinGP.obj) (ps : nat)
    (p : ndarray2 A) (tau : option (list A)) (h h' : gmap nat (ndarray2 A))
    (means std : ndarray2 A) :
  length (MultiBinGP.gps o) = MultiBinGP.nz o ->
  h !! ps = Some p ->
  MultiBinGP.predict o ps tau h = Ok ((means, std), h') ->
  exists vs,
    nd_rows means = [concat vs] /\
    nd_ncols means = MultiBinGP.nk o * MultiBinGP.nz o /\
    length vs = MultiBinGP.nz o /\
    (forall i v, vs !! i = Some v ->
       length v = MultiBinGP.nk o /\
       Np.slice (i * MultiBinGP.nk o) ((i + 1) * MultiBinGP.nk o) (concat vs)
         = v) /\
    forall i g, MultiBinGP.gps o !! i = Some g ->
      exists z m s v0 v,
        bin_input p tau i = Ok z /\
        run_predict g z = Ok (m, s) /\
        nd_rows m = [v0] /\
        Np.stretch (MultiBinGP.nk o) v0 = Ok v /\
        vs !! i = Some v.
Proof.
  intros Hlen Hps Hheap.
  pose proof (predict_heap_pure o ps p tau h Hps) as Hrun.
  rewrite Hheap in Hrun. destruct Hrun as [Hrun _].
  destruct (predict_pure_layout o p tau means std Hlen Hrun)
    as (vs & Hrows & Hcols & Hvs & Hall & Hbins).
  exists vs. repeat (split; [assumption|]). split; [|exact Hbins].
  intros i v Hv. split.
  - rewrite Forall_lookup in Hall. exact (Hall i v Hv).
  - apply slice_concat; assumption.
Qed.

(** What [MultiBinGP.predict] needs to return: a factor in [tau0_factors]
    for every bin, an entry [[0][0]] to scale when there is a bin, and from
    every emulator a mean of one row, that is one vector of parameters. *)
Theorem multibin_predict_requires (o : MultiBinGP.obj) (ps : nat)
    (p : ndarray2 A) (taus : list A) (h h' : gmap nat (ndarray2 A))
    (r : ndarray2 A * ndarray2 A) :
  length (MultiBinGP.gps o) = MultiBinGP.nz o ->
  h !! ps = Some p ->
  MultiBinGP.predict o ps (Some taus) h = Ok (r, h') ->
  MultiBinGP.nz o <= length taus /\
  (0 < MultiBinGP.nz o ->
   exists x row rows, nd_rows p = (x :: row) :: rows) /\
  forall i g, MultiBinGP.gps o !! i = Some g ->
    exists t z m s,
      taus !! i = Some t /\ scale00 p t = Ok z /\
      run_predict g z = Ok (m, s) /\ Np.shape0 m = 1.
Proof.
  intros Hlen Hps Hheap.
  pose proof (predict_heap_pure o ps p (Some taus) h Hps) as Hrun.
  rewrite Hheap in Hrun. destruct Hrun as [Hrun _]. destruct r as [means std].
  destruct (predict_pure_layout o p _ means std Hlen Hrun)
    as (vs & _ & _ & _ & _ & Hbins).
  assert (forall i g, MultiBinGP.gps o !! i = Some g ->
    exists t z m s,
      taus !! i = Some t /\ scale00 p t = Ok z /\
      run_predict g z = Ok (m, s) /\ Np.shape0 m = 1) as Hall.
  { intros i g Hg.
    destruct (Hbins i g Hg) as (z & m & s & v0 & v & Hz & Hp & Hm & _).
    unfold bin_input in Hz. destruct (taus !! i) as [t|]; [|discriminate].
    simpl in Hz. exists t, z, m, s. unfold Np.shape0. rewrite Hm. auto. }
  split; [|split; [|exact Hall]].
  - destruct (le_lt_dec (MultiBinGP.nz o) (length taus)) as [|Hlt]; [assumption|].
    destruct (lookup_lt_is_Some_2 (MultiBinGP.gps o) (length taus)) as [g Hg];
      [lia|].
    destruct (Hall _ g Hg) as (t & _ & _ & _ & Ht & _).
    apply lookup_lt_Some in Ht. lia.
  - intros Hnz.
    destruct (lookup_lt_is_Some_2 (MultiBinGP.gps o) 0) as [g Hg]; [lia|].
    destruct (Hall _ g Hg) as (t & z & _ & _ & _ & Hz & _).
    unfold scale00 in Hz.
    destruct (nd_rows p) as [|[|x row] rows]; try discriminate. eauto.
Qed.

End MultiBinLayoutClaims.

Lemma multibin_predict_layout_witness :
  length (MultiBinGP.gps StandIn.multibin2) = MultiBinGP.nz StandIn.multibin2 /\
  StandIn.heap1 !! 0 = Some StandIn.query /\
  exists means std h' vs,
    MultiBinGP.predict StandIn.multibin2 0 (Some [2; 3]%float) StandIn.heap1
      = Ok ((means, std), h') /\
    nd_rows means = [concat vs] /\
    length vs = MultiBinGP.nz StandIn.multibin2.
Proof.
  split; [reflexivity|]. split; [reflexivity|].
  destruct (MultiBinGP.predict StandIn.multibin2 0 (Some [2; 3]%float)
              StandIn.heap1) as [[[means std] h']|e] eqn:Hrun.
  - destruct (multibin_predict_layout StandIn.multibin2 0 StandIn.query
                (Some [2; 3]%float) StandIn.heap1 h' means std
                eq_refl eq_refl Hrun)
      as (vs & Hrows & _ & Hlen & _).
    exists means, std, h', vs. auto.
  - exfalso. vm_compute in Hrun. discriminate.
Defined.

(** ** [SkLearnGP]: what the methods leave alone *)

Section EmulatorExtras.
Context {A : Type} {SA : Scalar A} {LA : Lib A}.

(** [predict] and [get_predict_error] only read: when they return, the
    object is the one they were called on and nothing has been printed. *)
Theorem predict_is_read_only (qs : ndarray2 A) (exact : list A)
    (w : SkLearnGP.world) :
  (forall r w', SkLearnGP.predict qs w = Ok (r, w') -> w' = w) /\
  (forall r w', SkLearnGP.get_predict_error qs exact w = Ok (r, w') -> w' = w).
Proof.
  split; intros r w' Hrun.
  - eapply predict_reads. exact Hrun.
  - eapply get_predict_error_reads. exact Hrun.
Qed.

(** Without the cross-validation [__init__] is one call of [_get_interp]:
    it prints the factor [1] and stores it. *)
Lemma init_nocv_run (ps powers limits : ndarray2 A) (use_coreg : bool)
    (out : list (event A)) :
  SkLearnGP.init ps powers limits use_coreg false out =
  match interp_of limits use_coreg ps powers with
  | Ok (sf, pz, g) =>
      Ok (SkLearnGP.Obj ps limits (s_of_Q 3e-5) false use_coreg (s_of_nat 1)
            (Some sf) (Some pz) (Some g),
          out ++ [PrintRescaling (s_of_nat 1)])
  | Raise e => Raise e
  end.
Proof.
  unfold SkLearnGP.init.
  cbv [mbind mret SkLearnGP.self SkLearnGP.print modify]. simpl.
  rewrite get_interp_run by reflexivity. simpl.
  destruct (interp_of limits use_coreg ps powers) as [[[sf pz] g]|];
    reflexivity.
Qed.

(** The bookkeeping of [__init__]: the object keeps the training
    parameters, the limits and the flag it was given, its self-test is off,
    and the last thing printed is the factor it stores; without the
    cross-validation that factor is [1] and nothing else is printed. *)
Theorem init_bookkeeping (ps powers limits : ndarray2 A) (use_coreg cv : bool)
    (out out' : list (event A)) (o : SkLearnGP.obj) :
  SkLearnGP.init ps powers limits use_coreg cv out = Ok (o, out') ->
  SkLearnGP.params o = ps /\
  SkLearnGP.param_limits o = limits /\
  SkLearnGP.coreg o = use_coreg /\
  SkLearnGP._test_interp o = false /\
  (exists out1, out' = out1 ++ [PrintRescaling (SkLearnGP.sdscale o)]) /\
  (cv = false ->
   SkLearnGP.sdscale o = s_of_nat 1 /\
   out' = out ++ [PrintRescaling (s_of_nat 1)]).
Proof.
  intros Hi. apply init_inv in Hi
    as (sd & o1 & out1 & sf & pz & g & Hcv & _ & -> & ->). simpl.
  repeat (split; [reflexivity|]). split; [eauto|].
  intros ->. destruct Hcv as [-> ->]. auto.
Qed.

(** The cross-validation changes the error bars only: the model, the
    median spectrum and its parameters of an object built with it are those
    of the object built without it. *)
Theorem cv_leaves_model (ps powers limits : ndarray2 A) (use_coreg : bool)
    (out out' : list (event A)) (o : SkLearnGP.obj) :
  SkLearnGP.init ps powers limits use_coreg true out = Ok (o, out') ->
  exists o',
    SkLearnGP.init ps powers limits use_coreg false out
      = Ok (o', out ++ [PrintRescaling (s_of_nat 1)]) /\
    SkLearnGP.gp o' = SkLearnGP.gp o /\
    SkLearnGP.scalefactors o' = SkLearnGP.scalefactors o /\
    SkLearnGP.paramzero o' = SkLearnGP.paramzero o.
Proof.
  intros Hi. apply init_inv in Hi
    as (sd & o1 & out1 & sf & pz & g & _ & Hfit & -> & _).
  rewrite init_nocv_run, Hfit. eexists. split; [reflexivity|].
  simpl. auto.
Qed.

(** [_get_interp] cannot fit an array of spectra without rows: the median
    index [n//2 = 0] is out of the bounds of the empty [argsort]. *)
Lemma get_interp_empty (ps flux : ndarray2 A) (o : SkLearnGP.obj)
    (out : list (event A)) :
  SkLearnGP._test_interp o = false ->
  nd_rows ps = [] -> nd_rows flux = [] ->
  SkLearnGP._get_interp ps flux (o, out) = Raise IndexError.
Proof.
  intros Htest Hps Hflux. rewrite get_interp_run by exact Htest.
  unfold interp_of, SkLearnGP.unit_cube, SkLearnGP.median_index, Np.shape0.
  rewrite Hps, Hflux. reflexivity.
Qed.

(** A training set needs two points for the cross-validation and one
    without it: with a single point the only fold trains on nothing, and
    [__init__] raises [IndexError]; so it does on an empty training set
    without the cross-validation. *)
Theorem init_too_few_points (ps powers limits : ndarray2 A)
    (use_coreg : bool) (out : list (event A)) :
  (Np.shape0 ps = 1 -> Np.shape0 powers = 1 ->
   SkLearnGP.init ps powers limits use_coreg true out = Raise IndexError) /\
  (Np.shape0 ps = 0 -> Np.shape0 powers = 0 ->
   SkLearnGP.init ps powers limits use_coreg false out = Raise IndexError).
Proof.
  split; intros Hps Hpw.
  - unfold SkLearnGP.init, SkLearnGP.cv_rescale. rewrite Hpw.
    cbn [seq mmapM].
    assert (forall w, SkLearnGP._test_interp (fst w) = false ->
              SkLearnGP._get_cv_one 0 ps powers w = Raise IndexError) as Hfold.
    { intros [o1 out1] Htest. unfold SkLearnGP._get_cv_one.
      rewrite Hpw. rewrite <- Hpw at 1. rewrite mask_rows_leave_one_out.
      rewrite <- Hps. rewrite mask_rows_leave_one_out.
      rewrite !mbind_lift_ok. unfold mbind at 1.
      rewrite get_interp_empty; [reflexivity | exact Htest | |]; simpl.
      - unfold Np.shape0 in Hps. destruct (nd_rows ps) as [|r [|r' rs]];
          try discriminate. reflexivity.
      - unfold Np.shape0 in Hpw. destruct (nd_rows powers) as [|r [|r' rs]];
          try discriminate. reflexivity. }
    cbv [mbind]. rewrite Hfold by reflexivity. reflexivity.
  - rewrite init_nocv_run. unfold interp_of, SkLearnGP.unit_cube,
      SkLearnGP.median_index.
    unfold Np.shape0 in *. apply length_zero_iff_nil in Hps, Hpw.
    rewrite Hps, Hpw. reflexivity.
Qed.

(** The parameters and the spectra must have as many rows: otherwise the
    mask of a fold does not fit [params], and the fold raises [IndexError]
    before anything is trained. *)
Theorem cv_one_rows_mismatch (ps powers : ndarray2 A) (ex : nat)
    (w : SkLearnGP.world) :
  Np.shape0 ps <> Np.shape0 powers ->
  SkLearnGP._get_cv_one ex ps powers w = Raise IndexError.
Proof.
  intros Hne. unfold SkLearnGP._get_cv_one.
  rewrite mask_rows_leave_one_out, mbind_lift_ok.
  unfold Np.mask_rows at 1. unfold Np.arange_ne.
  rewrite length_map, length_seq.
  destruct (Nat.eqb_spec (Np.shape0 powers) (Np.shape0 ps)); [congruence|].
  reflexivity.
Qed.

End EmulatorExtras.

Lemma predict_is_read_only_witness :
  exists r,
    SkLearnGP.predict StandIn.query (StandIn.gp1, []) = Ok (r, (StandIn.gp1, [])).
Proof.
  destruct (SkLearnGP.predict StandIn.query (StandIn.gp1, []))
    as [[r w']|e] eqn:Hrun.
  - exists r.
    rewrite (proj1 (predict_is_read_only StandIn.query [] (StandIn.gp1, []))
               r w' Hrun).
    reflexivity.
  - exfalso. vm_compute in Hrun. discriminate.
Defined.

Lemma init_bookkeeping_witness :
  exists o out',
    SkLearnGP.init (LA := StandIn.lib true) StandIn.params2 StandIn.powers2
      StandIn.limits2 false true [] = Ok (o, out') /\
    SkLearnGP.params o = StandIn.params2 /\
    SkLearnGP.param_limits o = StandIn.limits2 /\
    exists out1, out' = out1 ++ [PrintRescaling (SkLearnGP.sdscale o)].
Proof.
  assert (exists o out',
    SkLearnGP.init (LA := StandIn.lib true) StandIn.params2 StandIn.powers2
      StandIn.limits2 false true [] = Ok (o, out')) as (o & out' & Hinit).
  { eexists _, _. vm_compute. reflexivity. }
  exists o, out'. split; [exact Hinit|].
  destruct (init_bookkeeping _ _ _ _ _ _ _ _ Hinit)
    as (Hps & Hlim & _ & _ & Hout & _).
  auto.
Defined.

Lemma cv_leaves_model_witness :
  exists o out' o',
    SkLearnGP.init (LA := StandIn.lib true) StandIn.params2 StandIn.powers2
      StandIn.limits2 false true [] = Ok (o, out') /\
    SkLearnGP.init (LA := StandIn.lib true) StandIn.params2 StandIn.powers2
      StandIn.limits2 false false []
      = Ok (o', [] ++ [PrintRescaling (s_of_nat 1)]) /\
    SkLearnGP.gp o' = SkLearnGP.gp o.
Proof.
  assert (exists o out',
    SkLearnGP.init (LA := StandIn.lib true) StandIn.params2 StandIn.powers2
      StandIn.limits2 false true [] = Ok (o, out')) as (o & out' & Hinit).
  { eexists _, _. vm_compute. reflexivity. }
  destruct (cv_leaves_model _ _ _ _ _ _ _ Hinit) as (o' & Hno & Hgp & _).
  exists o, out', o'. auto.
Defined.

Lemma init_too_few_points_witness :
  let one_ps := Nd2 [[0.25; 0.5]]%float 2 in
  let one_pw := Nd2 [[1; 2]]%float 2 in
  Np.shape0 one_ps = 1 /\ Np.shape0 one_pw = 1 /\
  Np.shape0 (Nd2 (@nil (list float)) 2) = 0 /\
  SkLearnGP.init (LA := StandIn.lib true) one_ps one_pw StandIn.limits2
    false true [] = Raise IndexError /\
  SkLearnGP.init (LA := StandIn.lib true) (Nd2 [] 2) (Nd2 [] 2)
    StandIn.limits2 false false [] = Raise IndexError.
Proof.
  intros one_ps one_pw.
  split; [reflexivity|]. split; [reflexivity|]. split; [reflexivity|]. split.
  - exact (proj1 (init_too_few_points (LA := StandIn.lib true) one_ps one_pw
                    StandIn.limits2 false []) eq_refl eq_refl).
  - exact (proj2 (init_too_few_points (LA := StandIn.lib true) (Nd2 [] 2)
                    (Nd2 [] 2) StandIn.limits2 false []) eq_refl eq_refl).
Defined.

Lemma cv_one_rows_mismatch_witness :
  Np.shape0 StandIn.query <> Np.shape0 StandIn.powers2 /\
  SkLearnGP._get_cv_one 0 StandIn.query StandIn.powers2 (StandIn.world0 true)
    = Raise IndexError.
Proof.
  assert (Np.shape0 StandIn.query <> Np.shape0 StandIn.powers2) as Hne
    by (simpl; discriminate).
  split; [exact Hne|].
  exact (cv_one_rows_mismatch StandIn.query StandIn.powers2 0
           (StandIn.world0 true) Hne).
Defined.

Lemma multibin_predict_requires_witness :
  length (MultiBinGP.gps StandIn.multibin2) = MultiBinGP.nz StandIn.multibin2 /\
  StandIn.heap1 !! 0 = Some StandIn.query /\
  exists r h',
    MultiBinGP.predict StandIn.multibin2 0 (Some [2; 3]%float) StandIn.heap1
      = Ok (r, h') /\
    MultiBinGP.nz StandIn.multibin2 <= length [2; 3]%float.
Proof.
  split; [reflexivity|]. split; [reflexivity|].
  destruct (MultiBinGP.predict StandIn.multibin2 0 (Some [2; 3]%float)
              StandIn.heap1) as [[r h']|e] eqn:Hrun.
  - exists r, h'. split; [reflexivity|].
    exact (proj1 (multibin_predict_requires StandIn.multibin2 0 StandIn.query
                    [2; 3]%float StandIn.heap1 h' r eq_refl eq_refl Hrun)).
  - exfalso. vm_compute in Hrun. discriminate.
Defined.

(** ** What is printed, and the shapes [predict] works with *)

Lemma bcast1_singleton_l {B C D} (op : B -> C -> D) (x : B) (v : list C) :
  Np.bcast1 op [x] v = Ok (map (op x) v).
Proof.
  unfold Np.bcast1. simpl. destruct v as [|y [|y' v]]; reflexivity.
Qed.

Lemma bcast1_mismatch {B C D} (op : B -> C -> D) (u : list B) (v : list C) :
  length u <> length v -> length u <> 1 -> length v <> 1 ->
  Np.bcast1 op u v = Raise ValueError.
Proof.
  intros Hne Hu Hv. unfold Np.bcast1.
  destruct (Nat.eqb_spec (length u) (length v)); [contradiction|].
  destruct u as [|x [|x' u]], v as [|y [|y' v]]; simpl in *;
    try reflexivity; congruence.
Qed.

Section Shapes.
Context {A : Type} {SA : Scalar A} {LA : Lib A}.

(** An array of one column with a row vector: the column is stretched. *)
Lemma bcast21_column (op : A -> A -> A) (m : ndarray2 A) (v : list A) :
  wf2 m -> nd_ncols m = 1 ->
  Np.bcast21 op m v =
  Ok (Nd2 (map (fun r => match r with
                         | [x] => map (op x) v
                         | _ => []
                         end) (nd_rows m))
          (length v)).
Proof.
  intros Hwf Hc. unfold Np.bcast21, Np.bcast2, Np.bshape. simpl. rewrite Hc.
  assert ((if 1 =? length v then Ok 1
           else if 1 =? 1 then Ok (length v)
           else if length v =? 1 then Ok 1 else Raise ValueError)
          = Ok (length v)) as ->.
  { destruct (Nat.eqb_spec 1 (length v)) as [<-|]; reflexivity. }
  simpl.
  assert (Forall (fun r => Np.bcast1 op r v =
                   Ok (match r with [x] => map (op x) v | _ => [] end))
            (nd_rows m)) as Hrows.
  { eapply Forall_impl; [exact Hwf|]. simpl. intros r Hr. rewrite Hc in Hr.
    destruct r as [|x [|x' r]]; try discriminate.
    apply bcast1_singleton_l. }
  unfold Np.bcast_rows.
  pose proof (res_mapM_map (fun u => Np.bcast1 op u v) _ _ Hrows) as Hmap.
  destruct (nd_rows m) as [|r [|r' rs]]; simpl in *.
  - reflexivity.
  - inversion Hrows as [|? ? Hr _]; subst. rewrite Hr. reflexivity.
  - rewrite Hmap. reflexivity.
Qed.

(** The entries of a prediction, for a model that answers with as many
    mean columns as [scalefactors] has entries and one variance per row:
    [mean[i][j] = (flux_predict[i][j] + 1) * scalefactors[j]] and
    [std[i][j] = sdscale * sqrt(var[i]) * scalefactors[j]]. *)
Theorem predict_entries (qs cube flux_predict var : ndarray2 A)
    (o : SkLearnGP.obj) (out : list (event A)) (g : gp_model) (sf : list A) :
  SkLearnGP.gp o = Some g ->
  SkLearnGP.scalefactors o = Some sf ->
  SkLearnGP.unit_cube (SkLearnGP.param_limits o) qs = Ok cube ->
  gp_predict g cube = Ok (flux_predict, var) ->
  wf2 flux_predict -> nd_ncols flux_predict = length sf ->
  wf2 var -> nd_ncols var = 1 ->
  SkLearnGP.predict qs (o, out) =
  Ok ((Nd2 (map (fun r => zip_with (fun x s => s_mul (s_add x (s_of_nat 1)) s)
                            r sf)
              (nd_rows flux_predict)) (length sf),
       Nd2 (map (fun r => match r with
                          | [v] => map (fun s =>
                                     s_mul (s_mul (SkLearnGP.sdscale o)
                                              (np_sqrt v)) s) sf
                          | _ => []
                          end) (nd_rows var)) (length sf)),
      (o, out)).
Proof.
  intros Hg Hsf Hcube Hgp Hwf Hc Hwfv Hcv.
  rewrite (predict_run qs o out sf g Hg Hsf), Hcube. simpl. rewrite Hgp. simpl.
  unfold SkLearnGP.denormalise.
  rewrite bcast21_wf;
    [| unfold wf2, Np.map2d in *; simpl; rewrite Forall_map;
       eapply Forall_impl; [exact Hwf|]; simpl; intros r Hr;
       rewrite length_map; exact Hr
     | exact Hc].
  simpl.
  rewrite bcast21_column;
    [| unfold wf2, Np.map2d in *; simpl; rewrite Forall_map;
       eapply Forall_impl; [exact Hwfv|]; simpl; intros r Hr;
       rewrite length_map; exact Hr
     | exact Hcv].
  simpl. rewrite Hc. f_equal. f_equal. f_equal.
  - f_equal. rewrite map_map. apply map_ext. intros r.
    revert sf Hsf Hc. clear. intros sf _ _. revert sf.
    induction r as [|x r IH]; intros [|s sf]; simpl; try reflexivity.
    rewrite IH. reflexivity.
  - f_equal. rewrite map_map. apply map_ext. intros [|v [|v' r]]; reflexivity.
Qed.





(** Without a row of test parameters [get_predict_error] raises
    [ValueError]: [reshape(0, -1)] has no shape to give. *)
Theorem get_predict_error_no_rows (test_params : ndarray2 A)
    (test_exact : list A) (w : SkLearnGP.world) :
  Np.shape0 test_params = 0 ->
  SkLearnGP.get_predict_error test_params test_exact w = Raise ValueError.
Proof.
  intros Hn. unfold SkLearnGP.get_predict_error, Np.reshape_rows.
  rewrite Hn. reflexivity.
Qed.

End Shapes.

Lemma predict_entries_witness :
  let fp := Nd2 [[0%float]] 1 in
  let var := Nd2 [[1%float]] 1 in
  SkLearnGP.gp StandIn.gp1 = Some StandIn.model1 /\
  SkLearnGP.scalefactors StandIn.gp1 = Some [4%float] /\
  gp_predict (Lib := StandIn.lib true) StandIn.model1 StandIn.query
    = Ok (fp, var) /\
  wf2 fp /\ wf2 var /\
  SkLearnGP.predict StandIn.query (StandIn.gp1, []) =
  Ok ((Nd2 [[PrimFloat.mul (PrimFloat.add 0 1) 4]] 1,
       Nd2 [[PrimFloat.mul (PrimFloat.mul 1 (PrimFloat.sqrt 1)) 4]] 1),
      (StandIn.gp1, [])).
Proof.
  intros fp var.
  assert (wf2 fp) as Hwf by (repeat constructor).
  assert (wf2 var) as Hwfv by (repeat constructor).
  repeat (split; [first [reflexivity | assumption]|]).
  exact (predict_entries (LA := StandIn.lib true) StandIn.query StandIn.query
           fp var StandIn.gp1 [] StandIn.model1 [4%float]
           eq_refl eq_refl eq_refl eq_refl Hwf eq_refl Hwfv eq_refl).
Defined.


Lemma get_predict_error_no_rows_witness :
  Np.shape0 (Nd2 (@nil (list float)) 2) = 0 /\
  SkLearnGP.get_predict_error (Nd2 [] 2) [1%float] (StandIn.gp1, [])
    = Raise ValueError.
Proof.
  split; [reflexivity|].
  exact (get_predict_error_no_rows (Nd2 [] 2) [1%float] (StandIn.gp1, [])
           eq_refl).
Defined.


(** ** What [MultiBinGP.__init__] prints *)

Section MultiBinTrace.
Context {A : Type} {SA : Scalar A} {LA : Lib A}.



End MultiBinTrace.


(** ** The self-test of [_get_interp] *)

Lemma SFcompare_refl (f : spec_float) :
  f <> S754_nan -> SFcompare f f = Some Eq.
Proof.
  destruct f as [[]|[]| |[] m e]; simpl; try reflexivity; try congruence;
    intros _; rewrite Z.compare_refl, Pos.compare_cont_refl; reflexivity.
Qed.

(** A comparison that holds has no NaN on either side. *)
Lemma ltb_not_nan (x y : float) :
  PrimFloat.ltb x y = true ->
  PrimFloat.is_nan x = false /\ PrimFloat.is_nan y = false.
Proof.
  rewrite FloatAxioms.ltb_spec. unfold PrimFloat.is_nan.
  rewrite !FloatAxioms.eqb_spec.
  unfold SFltb, SFeqb. intros H.
  assert (Prim2SF x <> S754_nan /\ Prim2SF y <> S754_nan) as [Hx Hy].
  { destruct (Prim2SF x) as [[]|[]| |[] m e], (Prim2SF y) as [[]|[]| |[] m' e'];
      simpl in H; try discriminate; split; discriminate. }
  rewrite !SFcompare_refl by assumption. auto.
Qed.

Lemma ltb_asym (x y : float) :
  PrimFloat.ltb x y = true -> PrimFloat.ltb y x = false.
Proof.
  rewrite !FloatAxioms.ltb_spec. unfold SFltb.
  destruct (Prim2SF x) as [[]|[]| |[] m e], (Prim2SF y) as [[]|[]| |[] m' e'];
    simpl; try discriminate; try reflexivity;
    pose proof (Pos.compare_cont_antisym m m' Eq) as Hm; simpl in Hm;
    rewrite (Z.compare_antisym e e'), <- Hm;
    destruct (e ?= e')%Z; simpl; try discriminate; try reflexivity;
    destruct (Pos.compare_cont Eq m m'); simpl; try discriminate; reflexivity.
Qed.

Section SelfTest.
Context {A : Type} {SA : Scalar A} {LA : Lib A}.

(** [_get_interp] with or without the self-test: the fit, stored, and then
    the test if the flag is set. *)
Lemma get_interp_any (ps flux : ndarray2 A) (o : SkLearnGP.obj)
    (out : list (event A)) :
  SkLearnGP._get_interp ps flux (o, out) =
  match interp_of (SkLearnGP.param_limits o) (SkLearnGP.coreg o) ps flux with
  | Ok (sf, pz, g) =>
      let o1 := SkLearnGP.Obj (SkLearnGP.params o) (SkLearnGP.param_limits o)
                  (SkLearnGP.intol o) (SkLearnGP._test_interp o)
                  (SkLearnGP.coreg o) (SkLearnGP.sdscale o)
                  (Some sf) (Some pz) (Some g) in
      if SkLearnGP._test_interp o
      then SkLearnGP.test_interp ps flux (o1, out)
      else Ok (tt, (o1, out))
  | Raise e => Raise e
  end.
Proof.
  unfold SkLearnGP._get_interp, interp_of.
  cbv [mbind SkLearnGP.self lift SkLearnGP.assign modify SkLearnGP.attr mret].
  simpl.
  destruct (SkLearnGP.unit_cube _ ps) as [cube|]; simpl; [|reflexivity].
  destruct (SkLearnGP.median_index flux) as [medind|]; simpl; [|reflexivity].
  destruct (Np.row flux medind) as [sf|]; simpl; [|reflexivity].
  destruct (Np.row cube medind) as [pz|]; simpl; [|reflexivity].
  destruct (SkLearnGP.normalise flux sf) as [norm|]; simpl; [|reflexivity].
  destruct (GPRegression _ _ _ _) as [g|]; simpl; [|reflexivity].
  destruct (gp_optimize g) as [g'|]; simpl; [|reflexivity].
  unfold SkLearnGP.set_gp, SkLearnGP.set_paramzero, SkLearnGP.set_scalefactors.
  simpl. destruct (SkLearnGP._test_interp o); reflexivity.
Qed.

(** A self-test that returns has printed nothing, when [<] is a strict
    order: what exceeds the tolerance is not below it, and the assertion
    after the message fails. *)
Lemma test_interp_inv (ps flux : ndarray2 A) (o o' : SkLearnGP.obj)
    (out out' : list (event A)) :
  (forall a b : A, s_ltb a b = true -> s_ltb b a = false) ->
  SkLearnGP.test_interp ps flux (o, out) = Ok (tt, (o', out')) ->
  o' = SkLearnGP.set_test_interp false o /\ out' = out /\
  exists p0 test sg t0 f0 q mx,
    Np.row ps 0 = Ok p0 /\
    SkLearnGP.predict (Np.reshape_row p0) (o, out) = Ok ((test, sg), (o, out)) /\
    Np.row test 0 = Ok t0 /\
    Np.row flux 0 = Ok f0 /\
    Np.bcast1 s_div t0 f0 = Ok q /\
    Np.max (map (fun x => s_abs (s_sub x (s_of_nat 1))) q) = Ok mx /\
    s_ltb (SkLearnGP.intol o) mx = false.
Proof.
  intros Hasym Ht. unfold SkLearnGP.test_interp in Ht.
  apply mbind_ok in Ht as (p0 & s & Hx & Ht). apply lift_ok in Hx as [Hp0 ->].
  apply mbind_ok in Ht as ([test sg] & s & Hpred & Ht).
  pose proof (predict_reads _ _ _ _ Hpred) as ->.
  apply mbind_ok in Ht as (t0 & s & Hx & Ht). apply lift_ok in Hx as [Ht0 ->].
  apply mbind_ok in Ht as (f0 & s & Hx & Ht). apply lift_ok in Hx as [Hf0 ->].
  apply mbind_ok in Ht as (q & s & Hx & Ht). apply lift_ok in Hx as [Hq ->].
  apply mbind_ok in Ht as (mx & s & Hx & Ht). apply lift_ok in Hx as [Hmx ->].
  apply mbind_ok in Ht as (o2 & s & Hx & Ht).
  inversion Hx; subst o2 s. clear Hx. simpl in Ht.
  apply mbind_ok in Ht as ([] & [o3 out3] & Hif & Hset).
  destruct (s_ltb (SkLearnGP.intol o) mx) eqn:Hlt.
  - apply mbind_ok in Hif as ([] & s & _ & Hif).
    rewrite (Hasym _ _ Hlt) in Hif. discriminate.
  - inversion Hif; subst o3 out3. inversion Hset; subst.
    split; [reflexivity|]. split; [reflexivity|].
    exists p0, test, sg, t0, f0, q, mx. auto 10.
Qed.

(** The flag of the self-test is not read by [predict]. *)
Lemma predict_test_flag (qs : ndarray2 A) (o : SkLearnGP.obj)
    (out : list (event A)) (b : bool) r :
  SkLearnGP.predict qs (o, out) = Ok (r, (o, out)) ->
  SkLearnGP.predict qs (SkLearnGP.set_test_interp b o, out)
    = Ok (r, (SkLearnGP.set_test_interp b o, out)).
Proof.
  intros Hr.
  assert (exists g sf, SkLearnGP.gp o = Some g /\
                       SkLearnGP.scalefactors o = Some sf) as (g & sf & Hg & Hsf).
  { unfold SkLearnGP.predict in Hr.
    cbv [mbind SkLearnGP.self lift SkLearnGP.attr mret] in Hr. simpl in Hr.
    repeat case_match; simplify_eq; eauto. }
  rewrite (predict_run qs o out sf g Hg Hsf) in Hr.
  rewrite (predict_run qs (SkLearnGP.set_test_interp b o) out sf g)
    by assumption.
  change (SkLearnGP.param_limits (SkLearnGP.set_test_interp b o))
    with (SkLearnGP.param_limits o).
  change (SkLearnGP.sdscale (SkLearnGP.set_test_interp b o))
    with (SkLearnGP.sdscale o).
  match type of Hr with
  | match ?x with _ => _ end = _ => destruct x as [r'|]; [|discriminate]
  end.
  inversion Hr; subst. reflexivity.
Qed.

(** When [_get_interp] returns, with the self-test or without it: nothing
    has been printed, the flag of the self-test is off, the training set,
    the limits, the tolerance and the factor of the object are untouched,
    and the model and its normalisation are those of the arrays it was
    given.  If the self-test ran, the prediction of that model at the first
    row of parameters is within the tolerance of the first spectrum: the
    largest [|test/flux - 1|] is not above [intol]. *)
Theorem get_interp_self_test (ps flux : ndarray2 A) (o o' : SkLearnGP.obj)
    (out out' : list (event A)) :
  (forall a b : A, s_ltb a b = true -> s_ltb b a = false) ->
  SkLearnGP._get_interp ps flux (o, out) = Ok (tt, (o', out')) ->
  out' = out /\
  SkLearnGP._test_interp o' = false /\
  SkLearnGP.params o' = SkLearnGP.params o /\
  SkLearnGP.param_limits o' = SkLearnGP.param_limits o /\
  SkLearnGP.intol o' = SkLearnGP.intol o /\
  SkLearnGP.coreg o' = SkLearnGP.coreg o /\
  SkLearnGP.sdscale o' = SkLearnGP.sdscale o /\
  (exists sf pz g,
     interp_of (SkLearnGP.param_limits o) (SkLearnGP.coreg o) ps flux
       = Ok (sf, pz, g) /\
     SkLearnGP.scalefactors o' = Some sf /\
     SkLearnGP.paramzero o' = Some pz /\
     SkLearnGP.gp o' = Some g) /\
  (SkLearnGP._test_interp o = true ->
   exists p0 test sg t0 f0 q mx,
     Np.row ps 0 = Ok p0 /\
     SkLearnGP.predict (Np.reshape_row p0) (o', out)
       = Ok ((test, sg), (o', out)) /\
     Np.row test 0 = Ok t0 /\
     Np.row flux 0 = Ok f0 /\
     Np.bcast1 s_div t0 f0 = Ok q /\
     Np.max (map (fun x => s_abs (s_sub x (s_of_nat 1))) q) = Ok mx /\
     s_ltb (SkLearnGP.intol o) mx = false).
Proof.
  intros Hasym Hg. rewrite get_interp_any in Hg.
  destruct (interp_of _ _ ps flux) as [[[sf pz] g]|]; [|discriminate].
  cbv zeta in Hg. destruct (SkLearnGP._test_interp o) eqn:Htest.
  - apply test_interp_inv in Hg
      as (-> & -> & p0 & test & sg & t0 & f0 & q & mx & Hp0 & Hpred & Hrest);
      [|exact Hasym].
    simpl. repeat (split; [reflexivity|]). split; [eauto 10|].
    intros _. exists p0, test, sg, t0, f0, q, mx. split; [exact Hp0|].
    split; [|exact Hrest].
    exact (predict_test_flag _ _ _ false _ Hpred).
  - inversion Hg; subst. simpl. repeat (split; [reflexivity|]).
    split; [eauto 10|]. discriminate.
Qed.

End SelfTest.

Lemma get_interp_self_test_witness :
  let o := SkLearnGP.Obj (LA := StandIn.lib true) StandIn.params2
             StandIn.limits2 (s_of_Q 3e-5) true false (s_of_nat 1)
             None None None in
  let flux := Nd2 [[4; 8]; [1; 2]]%float 2 in
  (forall a b : float, s_ltb a b = true -> s_ltb b a = false) /\
  exists o',
    SkLearnGP._get_interp StandIn.params2 flux (o, [])
      = Ok (tt, (o', [])) /\
    SkLearnGP._test_interp o' = false.
Proof.
  intros o flux.
  assert (forall a b : float, s_ltb a b = true -> s_ltb b a = false) as Hasym
    by exact ltb_asym.
  split; [exact Hasym|].
  destruct (SkLearnGP._get_interp StandIn.params2 flux (o, []))
    as [[[] [o' out']]|e] eqn:Hrun.
  - destruct (get_interp_self_test (LA := StandIn.lib true) StandIn.params2
                flux o o' [] out' Hasym Hrun)
      as (-> & Htest & _).
    exists o'. auto.
  - exfalso. vm_compute in Hrun. discriminate.
Defined.

(** ** [fit_temp_dens_relation]: shapes, messages, and what never reaches
    the fit *)

Section TempDensExtras.
Context {A : Type} {SA : Scalar A} {LA : Lib A}.

(** Two arrays of different lengths, neither of length one, cannot be
    masked together: the product of the two masks raises [ValueError]
    before anything is fitted or printed. *)
Theorem fit_shape_mismatch (logoverden logT : list A) (out : list (event A)) :
  length logoverden <> length logT ->
  length logoverden <> 1 -> length logT <> 1 ->
  TempDens.fit_temp_dens_relation logoverden logT out = Raise ValueError.
Proof.
  intros Hne Ho Ht. unfold TempDens.fit_temp_dens_relation.
  rewrite bcast1_mismatch by (rewrite !length_map; assumption).
  reflexivity.
Qed.

(** All that [fit_temp_dens_relation] prints is the message of [leastsq],
    and only for a status [ier <= 0]: with a positive status nothing is
    printed, whatever the status says. *)
Theorem fit_prints (logoverden logT : list A) (out out' : list (event A))
    (r : A * A) :
  length logoverden = length logT ->
  TempDens.fit_temp_dens_relation logoverden logT out = Ok (r, out') ->
  exists lr,
    leastsq (power_law_residuals (selected_points logoverden logT))
      [np_log10 (s_of_Q 1e4); s_of_Q 0.5] = Ok lr /\
    ((0 < lsq_ier lr)%Z -> out' = out) /\
    ((lsq_ier lr <= 0)%Z -> out' = out ++ [PrintMessage (lsq_mesg lr)]).
Proof.
  intros Hlen Hfit. rewrite fit_run in Hfit by exact Hlen.
  destruct (leastsq _ _) as [lr|]; [|discriminate].
  destruct (lsq_x lr !! 0) as [p0|]; [|discriminate].
  destruct (lsq_x lr !! 1) as [p1|]; [|discriminate].
  inversion Hfit; subst. exists lr. split; [reflexivity|].
  destruct (Z.leb_spec (lsq_ier lr) 0); split; intros; try lia;
    [reflexivity | apply app_nil_r].
Qed.

End TempDensExtras.

Lemma fit_shape_mismatch_witness :
  let logoverden := [0.5; 2; -1]%float in
  let logT := [4; 3]%float in
  length logoverden <> length logT /\
  TempDens.fit_temp_dens_relation (LA := StandIn.lib true) logoverden logT []
    = Raise ValueError.
Proof.
  intros logoverden logT.
  assert (length logoverden <> length logT) as Hne by (simpl; lia).
  split; [exact Hne|].
  apply (fit_shape_mismatch (LA := StandIn.lib true) logoverden logT [] Hne);
    simpl; lia.
Defined.

Lemma fit_prints_witness :
  let logoverden := [0.5; 2; -1]%float in
  let logT := [4; 3; 6]%float in
  length logoverden = length logT /\
  exists r lr,
    TempDens.fit_temp_dens_relation (LA := StandIn.lib true) logoverden logT []
      = Ok (r, []) /\
    leastsq (Lib := StandIn.lib true)
      (power_law_residuals (selected_points logoverden logT))
      [np_log10 (Lib := StandIn.lib true) (s_of_Q 1e4); s_of_Q 0.5] = Ok lr /\
    (0 < lsq_ier lr)%Z.
Proof.
  intros logoverden logT. split; [reflexivity|].
  destruct (TempDens.fit_temp_dens_relation (LA := StandIn.lib true)
              logoverden logT []) as [[r out']|e] eqn:Hrun.
  - destruct (fit_prints (LA := StandIn.lib true) logoverden logT [] out' r
                eq_refl Hrun) as (lr & Hlsq & Hpos & _).
    assert ((0 < lsq_ier lr)%Z) as Hier.
    { vm_compute in Hlsq. inversion Hlsq. reflexivity. }
    exists r, lr. rewrite (Hpos Hier). auto.
  - exfalso. vm_compute in Hrun. discriminate.
Defined.

Lemma filter_filter_impl {B} (P Q : B -> Prop)
    `{!forall x, Decision (P x)} `{!forall x, Decision (Q x)} (l : list B) :
  (forall x, P x -> Q x) -> filter P (filter Q l) = filter P l.
Proof.
  intros Himp. induction l as [|x l IH]; [reflexivity|].
  rewrite !filter_cons. destruct (decide (Q x)) as [HQ|HQ].
  - rewrite filter_cons. destruct (decide (P x)); rewrite IH; reflexivity.
  - destruct (decide (P x)) as [HP|HP]; [exfalso; auto | exact IH].
Qed.

(** In binary64 a point with a NaN coordinate is never part of the fit:
    a comparison with NaN is false, so the mask drops the point, and the
    result and the output are those for the arrays without such points. *)
Theorem fit_ignores_nan {LF : Lib float} (logoverden logT : list float)
    (out : list (event float)) :
  length logoverden = length logT ->
  let pts :=
    filter (fun p => negb (PrimFloat.is_nan (fst p))
                     && negb (PrimFloat.is_nan (snd p)) = true)
           (zip logoverden logT) in
  TempDens.fit_temp_dens_relation logoverden logT out =
  TempDens.fit_temp_dens_relation (map fst pts) (map snd pts) out.
Proof.
  intros Hlen pts.
  rewrite fit_run by exact Hlen.
  rewrite fit_run by (rewrite !length_map; reflexivity).
  assert (selected_points (map fst pts) (map snd pts)
          = selected_points logoverden logT) as ->; [|reflexivity].
  unfold selected_points.
  change (map fst pts) with (fst <$> pts).
  change (map snd pts) with (snd <$> pts).
  rewrite zip_fst_snd. subst pts.
  apply filter_filter_impl. intros [x t]. cbn [fst snd]. intros Hsel.
  apply andb_true_iff in Hsel as [Hx Ht].
  apply ltb_not_nan in Hx as [-> _]. apply ltb_not_nan in Ht as [-> _].
  reflexivity.
Qed.

Lemma fit_ignores_nan_witness :
  let logoverden := [0.5; PrimFloat.nan; -1]%float in
  let logT := [4; 3; PrimFloat.nan]%float in
  length logoverden = length logT /\
  TempDens.fit_temp_dens_relation (LA := StandIn.lib true) logoverden logT []
  = TempDens.fit_temp_dens_relation (LA := StandIn.lib true)
      [0.5]%float [4]%float [].
Proof.
  intros logoverden logT. split; [reflexivity|].
  exact (fit_ignores_nan (LF := StandIn.lib true) logoverden logT [] eq_refl).
Defined.

(** ** The kernel of an emulator of one bin *)

Section SingleOutput.
Context {A : Type} {SA : Scalar A} {LA : Lib A}.

Lemma interp_of_single (limits ps flux : ndarray2 A) (use_coreg : bool) :
  wf2 flux -> nd_ncols flux = 1 ->
  interp_of limits use_coreg ps flux = interp_of limits false ps flux.
Proof.
  intros Hwf Hc. unfold interp_of.
  destruct (SkLearnGP.unit_cube limits ps) as [cube|]; simpl; [|reflexivity].
  destruct (SkLearnGP.median_index flux) as [medind|]; simpl; [|reflexivity].
  destruct (Np.row flux medind) as [sf|] eqn:Hrow; simpl; [|reflexivity].
  destruct (Np.row cube medind) as [pz|]; simpl; [|reflexivity].
  assert (nd_ncols flux = length sf) as Hsf.
  { unfold Np.row in Hrow.
    destruct (nd_rows flux !! medind) as [r|] eqn:Hr; [|discriminate].
    inversion Hrow; subst. unfold wf2 in Hwf. rewrite Forall_lookup in Hwf.
    symmetry. exact (Hwf _ _ Hr). }
  rewrite normalise_wf by assumption. simpl.
  unfold SkLearnGP.make_kernel, Np.shape1. simpl. rewrite Hc.
  rewrite andb_false_r. reflexivity.
Qed.

(** For spectra of a single column the flag [coreg] changes nothing:
    [_get_interp] builds the same model, with the kernel
    [Linear + RBF], on an object with the flag and on one without it. *)
Theorem coreg_single_output (ps flux : ndarray2 A)
    (o1 o2 o1' : SkLearnGP.obj) (out out1 : list (event A)) :
  wf2 flux -> nd_ncols flux = 1 ->
  SkLearnGP._test_interp o1 = false ->
  SkLearnGP._test_interp o2 = false ->
  SkLearnGP.param_limits o2 = SkLearnGP.param_limits o1 ->
  SkLearnGP._get_interp ps flux (o1, out) = Ok (tt, (o1', out1)) ->
  exists o2',
    SkLearnGP._get_interp ps flux (o2, out) = Ok (tt, (o2', out)) /\
    SkLearnGP.gp o2' = SkLearnGP.gp o1' /\
    SkLearnGP.scalefactors o2' = SkLearnGP.scalefactors o1' /\
    SkLearnGP.paramzero o2' = SkLearnGP.paramzero o1'.
Proof.
  intros Hwf Hc Ht1 Ht2 Hlim Hrun.
  rewrite get_interp_run in Hrun by exact Ht1.
  rewrite get_interp_run by exact Ht2.
  rewrite (interp_of_single _ _ _ (SkLearnGP.coreg o1)) in Hrun by assumption.
  rewrite (interp_of_single _ _ _ (SkLearnGP.coreg o2)) by assumption.
  rewrite Hlim.
  destruct (interp_of _ false ps flux) as [[[sf pz] g]|]; [|discriminate].
  inversion Hrun; subst. eexists. split; [reflexivity|]. simpl. auto.
Qed.

End SingleOutput.

Lemma coreg_single_output_witness :
  let flux := Nd2 [[4]; [1]]%float 1 in
  let o (c : bool) :=
    SkLearnGP.Obj (LA := StandIn.lib true) StandIn.params2 StandIn.limits2
      (s_of_Q 3e-5) false c (s_of_nat 1) None None None in
  wf2 flux /\ nd_ncols flux = 1 /\
  exists o1' o2',
    SkLearnGP._get_interp StandIn.params2 flux (o true, [])
      = Ok (tt, (o1', [])) /\
    SkLearnGP._get_interp StandIn.params2 flux (o false, [])
      = Ok (tt, (o2', [])) /\
    SkLearnGP.gp o2' = SkLearnGP.gp o1'.
Proof.
  intros flux o.
  assert (wf2 flux) as Hwf by (repeat constructor).
  split; [exact Hwf|]. split; [reflexivity|].
  destruct (SkLearnGP._get_interp StandIn.params2 flux (o true, []))
    as [[[] [o1' out1]]|e] eqn:Hrun.
  - destruct (coreg_single_output (LA := StandIn.lib true) StandIn.params2 flux
                (o true) (o false) o1' [] out1 Hwf eq_refl eq_refl eq_refl
                eq_refl Hrun) as (o2' & Hrun2 & Hgp & _).
    exists o1', o2'. split; [|auto].
    rewrite get_interp_run in Hrun by reflexivity.
    destruct (interp_of _ _ _ _) as [[[sf pz] g]|]; [|discriminate].
    inversion Hrun; subst. reflexivity.
  - exfalso. vm_compute in Hrun. discriminate.
Defined.
